(** * Lyon Flood Lab: the seeded generator, the scenario model and the URL codec

    A shallow embedding of the computational core of the flood demo
    (the seeded building dataset, the depth and damage formulas, the
    aggregate pass and the query-string state) together with the
    properties its specification states about it.

    Number model.  JavaScript numbers are IEEE-754 doubles.  The integer
    part of the generator (32-bit conversions, shifts, xor, [Math.imul])
    is modelled exactly on [Z].  The arithmetic of the scenario model
    ([Math.hypot], [Math.exp], sums and products of decimal constants) is
    modelled on the real numbers [R]: rounding, NaN and overflow are not
    represented.  [Infinity], which the source uses as the initial minimum
    distance, is represented by [None] in [option R].  The attenuation,
    which only adds and compares decimal constants, is in addition
    evaluated in binary64 ([Binary64]) to show that rounding does not
    change what is proved about it on [R].

    What is stated on [R] about the code is limited to what rounding
    preserves: bounds, monotonicity, and the value of an expression
    evaluated as the source writes it.  Strict inequalities between nearby
    values, threshold equivalences and exact identities between different
    expressions hold in the model only and are not claimed. *)

From Stdlib Require Import ZArith Reals Lra Lia List Bool.
From Stdlib Require Import Ascii String DecimalString DecimalZ DecimalPos.
From Stdlib Require PrimFloat FinFun.
Import ListNotations.

(* ================================================================== *)
(** * Part I: definitions *)
(* ================================================================== *)

(** ** Seeded generator (Mulberry32) *)

Module Mulberry.

Local Open Scope Z_scope.

(** The conversions JavaScript applies to the operands of its 32-bit
    operators. *)
Definition ToUint32 (x : Z) : Z := x mod 2 ^ 32.
Definition ToInt32 (x : Z) : Z := (x + 2 ^ 31) mod 2 ^ 32 - 2 ^ 31.

(** [a >>> n], [a ^ b], [a | b] and [Math.imul(a, b)]. *)
Definition ushr (a n : Z) : Z := Z.shiftr (ToUint32 a) (n mod 32).
Definition bxor (a b : Z) : Z := Z.lxor (ToInt32 a) (ToInt32 b).
Definition bor (a b : Z) : Z := Z.lor (ToInt32 a) (ToInt32 b).
Definition imul (a b : Z) : Z := ToInt32 (ToInt32 a * ToInt32 b).

(** The state captured by the closure that [mulberry32] returns: the
    variable [t].  The source never truncates [t] (it is a double that
    grows by [0x6D2B79F5] per call and stays exact below [2^53]); the
    32-bit operators reduce it on use.  [draws] is a ghost counter of the
    calls made so far; it is not in the source and no output depends on
    it. *)
Record Gen : Type := mkGen { t : Z; draws : nat }.

Definition mulberry32 (seed : Z) : Gen :=
  {| t := ToUint32 seed; draws := 0 |}.

(** The body of the closure after [t += 0x6D2B79F5], up to the final
    [>>> 0]: the 32-bit numerator of the value returned. *)
Definition output (t : Z) : Z :=
  let r := imul (bxor t (ushr t 15)) (bor 1 t) in
  let r := bxor r (r + imul (bxor r (ushr r 7)) (bor 61 r)) in
  ToUint32 (bxor r (ushr r 14)).

(** Computations that consume the stream. *)
Definition Rand (A : Type) : Type := Gen -> A * Gen.

Definition ret {A} (a : A) : Rand A := fun g => (a, g).
Definition bind {A B} (c : Rand A) (k : A -> Rand B) : Rand B :=
  fun g => let (a, g') := c g in k a g'.

(** One call of the closure. *)
Definition rand : Rand R :=
  fun g =>
    let t' := t g + 0x6D2B79F5 in
    ((IZR (output t') / 4294967296)%R, {| t := t'; draws := S (draws g) |}).

(** [xs.map(f)] for an [f] that draws from the stream. *)
Fixpoint mapRand {A B} (f : A -> Rand B) (xs : list A) : Rand (list B) :=
  match xs with
  | [] => ret []
  | x :: xs' =>
      bind (f x) (fun y => bind (mapRand f xs') (fun ys => ret (y :: ys)))
  end.

End Mulberry.

Declare Scope rand_scope.
Delimit Scope rand_scope with rand.
Notation "x <- c ;; k" := (Mulberry.bind c (fun x => k))
  (at level 61, c at next level, right associativity) : rand_scope.

(** ** The synthetic building dataset *)

Module Dataset.
Import Mulberry.
Local Open Scope R_scope.

Definition lyonCenter : R * R := (45.764043, 4.835659).

Record Building : Type := mkBuilding
  { id : Z;
    lat : R;
    lng : R;
    replacementCost : R;
    isCritical : bool }.

(** [a < b] as the boolean the source stores or branches on. *)
Definition ltb (a b : R) : bool := if Rlt_dec a b then true else false.

(** The callback of [Array.from({ length: 400 }).map((_, i) => ...)]. *)
Definition building (i : nat) : Rand Building :=
  (r1 <- rand ;;
   let latJitter := (r1 - 0.5) * 0.05 in
   r2 <- rand ;;
   let lngJitter := (r2 - 0.5) * 0.08 in
   r3 <- rand ;;
   r4 <- rand ;;
   ret {| id := Z.of_nat i + 1;
          lat := fst lyonCenter + latJitter;
          lng := snd lyonCenter + lngJitter;
          replacementCost := 100000 + r3 * 900000;
          isCritical := ltb r4 0.06 |})%rand.

Definition buildingsFrom (n : nat) : Rand (list Building) :=
  mapRand building (seq 0 n).

(** The global [buildings], as a function of the global [seed]. *)
Definition buildings (seed : Z) : list Building :=
  fst (buildingsFrom 400 (mulberry32 seed)).

End Dataset.

(** ** Scenario model: attenuation, depth field, damage curve *)

Module Scenario.
Import Dataset.
Local Open Scope R_scope.

(** The object returned by [getMitigationState]. *)
Record Mitigation : Type := mkMitigation
  { greenRoofs : bool;
    permeable  : bool;
    barriers   : bool }.

(** [computeMitigationAttenuation(m)]: the three guarded [atten += c]
    statements followed by [Math.min(0.35, atten)]. *)
Definition sumContributions (m : Mitigation) : R :=
  let atten := 0 in
  let atten := if greenRoofs m then atten + 0.08 else atten in
  let atten := if permeable m then atten + 0.10 else atten in
  let atten := if barriers m then atten + 0.12 else atten in
  atten.

Definition computeMitigationAttenuation (m : Mitigation) : R :=
  Rmin 0.35 (sumContributions m).

(** [Math.hypot(x, y)]. *)
Definition hypot (x y : R) : R := sqrt (x * x + y * y).

(** The local constant [centerline] of [depthAtPoint]; each entry is
    destructured by the loop as [[lng, lat]]. *)
Definition centerline : list (R * R) :=
  [ (4.835, 45.795); (4.835, 45.780); (4.835, 45.765); (4.835, 45.750) ].

(** [d < minDist], where [minDist] may still be [Infinity] ([None]). *)
Definition ltMinDist (d : R) (minDist : option R) : bool :=
  match minDist with
  | None => true
  | Some m => if Rlt_dec d m then true else false
  end.

(** One iteration of the [for] loop of [depthAtPoint]; a point is the
    array [[lat, lng]] as [renderBuildings] passes it. *)
Definition minDistStep (point : R * R) (minDist : option R) (c : R * R)
  : option R :=
  let '(lng, lat) := c in
  let d := hypot (fst point - lat) (snd point - lng) in
  if ltMinDist d minDist then Some d else minDist.

Definition minDistOver (line : list (R * R)) (point : R * R) : option R :=
  fold_left (minDistStep point) line None.

(** [Math.max(0, L / 100 - minDist * 200)]; with [minDist = Infinity] the
    second argument is [-Infinity] and the maximum is [0]. *)
Definition depthFrom (L : R) (minDist : option R) : R :=
  match minDist with
  | Some md => Rmax 0 (L / 100 - md * 200)
  | None => 0
  end.

Definition depthAtPoint (point : R * R) (levelCm : R) (mitigation : Mitigation)
  : R :=
  let attenuation := 1 - computeMitigationAttenuation mitigation in
  let L := levelCm * attenuation in
  let minDist := minDistOver centerline point in
  depthFrom L minDist.

(** [depthDamageRatio(depthMeters)]. *)
Definition depthDamageRatio (depthMeters : R) : R :=
  let d := Rmax 0 depthMeters in
  let ratio := 1 - exp (- d * 0.8) in
  Rmin 0.95 ratio.

(** The three figures [renderBuildings] shows in the KPI panel; the
    total is also its return value. *)
Record Kpi : Type := mkKpi
  { totalDamage : R;
    affectedCount : nat;
    criticalCount : nat }.

(** [a > b] as a boolean. *)
Definition gtb (a b : R) : bool := if Rgt_dec a b then true else false.

(** The body of the [for (const b of buildings)] loop, on the three
    accumulators; the map markers it also creates are not modelled. *)
Definition renderStep (levelCm : R) (mitigation : Mitigation)
  (acc : Kpi) (b : Building) : Kpi :=
  let depth := depthAtPoint (lat b, lng b) levelCm mitigation in
  let affected := gtb depth 0.05 in
  let ratio := if affected then depthDamageRatio depth else 0 in
  let damage := replacementCost b * ratio in
  {| totalDamage := totalDamage acc + damage;
     affectedCount :=
       if affected then (affectedCount acc + 1)%nat else affectedCount acc;
     criticalCount :=
       if affected && isCritical b
       then (criticalCount acc + 1)%nat else criticalCount acc |}.

Definition renderBuildingsOver (bs : list Building)
  (levelCm : R) (mitigation : Mitigation) : Kpi :=
  fold_left (renderStep levelCm mitigation) bs
    {| totalDamage := 0; affectedCount := 0; criticalCount := 0 |}.

(** [renderBuildings(levelCm, mitigation)] on the global dataset. *)
Definition renderBuildings (seed : Z) (levelCm : R) (mitigation : Mitigation)
  : Kpi :=
  renderBuildingsOver (buildings seed) levelCm mitigation.

End Scenario.

(** ** State codec: the query string written by [syncURL] and read back
    by [readURL] and by the initialiser of the global [seed] *)

Module Codec.
Import Scenario.
Local Open Scope string_scope.

(** *** The platform pieces the codec relies on

    Levels and seeds are integer-valued in this part (slider positions
    and integer seeds), so numbers are integers or [NaN].  [StringOf]
    is [String(n)] and [NumberOf] is [Number(v)] on that domain:
    [null] and the empty string read as [0], an optionally negated digit
    string as its value, and every other string as [NaN] (the remaining
    numeric notations of JavaScript are outside the domain). *)

Inductive Num : Type :=
| NaN
| Int (z : Z).

(** The integers a double holds exactly; on them [String(n)] is the
    plain decimal numeral. *)
Definition isSafeInteger (z : Z) : Prop :=
  (- (2 ^ 53 - 1) <= z <= 2 ^ 53 - 1)%Z.

Definition StringOf (z : Z) : string := NilZero.string_of_int (Z.to_int z).

Definition NumberOf (v : option string) : Num :=
  match v with
  | None => Int 0
  | Some EmptyString => Int 0
  | Some s =>
      match NilZero.int_of_string s with
      | Some d => Int (Z.of_int d)
      | None => NaN
      end
  end.

(** [x || d] for a number [x]: [0] and [NaN] are falsy. *)
Definition orElse (x : Num) (d : Z) : Z :=
  match x with
  | NaN => d
  | Int z => if Z.eqb z 0 then d else z
  end.

(** [if (x)] for a number. *)
Definition truthy (z : Z) : bool := negb (Z.eqb z 0).

(** [URLSearchParams]: an ordered list of name-value pairs. *)
Definition URLSearchParams : Type := list (string * string).

Fixpoint get (p : URLSearchParams) (name : string) : option string :=
  match p with
  | [] => None
  | (k, v) :: p' => if String.eqb k name then Some v else get p' name
  end.

Fixpoint set (p : URLSearchParams) (name value : string) : URLSearchParams :=
  match p with
  | [] => [(name, value)]
  | (k, v) :: p' =>
      if String.eqb k name
      then (name, value)
             :: filter (fun kv => negb (String.eqb (fst kv) name)) p'
      else (k, v) :: set p' name value
  end.

(** The [application/x-www-form-urlencoded] serialiser behind
    [params.toString()], on byte strings. *)
Definition isUnreserved (c : ascii) : bool :=
  let n := nat_of_ascii c in
  (Nat.eqb n 42 || Nat.eqb n 45 || Nat.eqb n 46 || Nat.eqb n 95
   || (Nat.leb 48 n && Nat.leb n 57)
   || (Nat.leb 65 n && Nat.leb n 90)
   || (Nat.leb 97 n && Nat.leb n 122))%bool.

Definition hexDigit (n : nat) : ascii :=
  nth n [ "0"; "1"; "2"; "3"; "4"; "5"; "6"; "7";
          "8"; "9"; "A"; "B"; "C"; "D"; "E"; "F" ]%char "0"%char.

Definition encodeByte (c : ascii) : string :=
  if isUnreserved c then String c ""
  else if Ascii.eqb c " " then "+"
  else
    let n := nat_of_ascii c in
    String "%" (String (hexDigit (n / 16)) (String (hexDigit (n mod 16)) "")).

Fixpoint urlencode (s : string) : string :=
  match s with
  | EmptyString => ""
  | String c s' => encodeByte c ++ urlencode s'
  end.

Definition toString (p : URLSearchParams) : string :=
  concat "&" (map (fun kv => urlencode (fst kv) ++ "=" ++ urlencode (snd kv)) p).

(** The matching parser behind [new URLSearchParams(location.search)]. *)
Fixpoint split (sep : ascii) (s : string) : list string :=
  match s with
  | EmptyString => [""]
  | String c s' =>
      if Ascii.eqb c sep then "" :: split sep s'
      else
        match split sep s' with
        | h :: tl => String c h :: tl
        | [] => [String c ""]
        end
  end.

(** Name and value of one sequence: cut at the first [=]. *)
Fixpoint cut (s : string) : string * string :=
  match s with
  | EmptyString => ("", "")
  | String c s' =>
      if Ascii.eqb c "=" then ("", s')
      else let (n, v) := cut s' in (String c n, v)
  end.

Fixpoint plusToSpace (s : string) : string :=
  match s with
  | EmptyString => ""
  | String c s' =>
      String (if Ascii.eqb c "+" then " "%char else c) (plusToSpace s')
  end.

Definition hexValue (c : ascii) : option nat :=
  let n := nat_of_ascii c in
  if (Nat.leb 48 n && Nat.leb n 57)%bool then Some (n - 48)
  else if (Nat.leb 65 n && Nat.leb n 70)%bool then Some (n - 55)
  else if (Nat.leb 97 n && Nat.leb n 102)%bool then Some (n - 87)
  else None.

Fixpoint percentDecode (s : string) : string :=
  match s with
  | EmptyString => ""
  | String c rest =>
      let plain := String c (percentDecode rest) in
      if Ascii.eqb c "%" then
        match rest with
        | String a (String b rest') =>
            match hexValue a, hexValue b with
            | Some x, Some y =>
                String (ascii_of_nat (16 * x + y)) (percentDecode rest')
            | _, _ => plain
            end
        | _ => plain
        end
      else plain
  end.

Definition parsePair (bytes : string) : string * string :=
  let (n, v) := cut bytes in
  (percentDecode (plusToSpace n), percentDecode (plusToSpace v)).

Definition parse (query : string) : URLSearchParams :=
  map parsePair
    (filter (fun bytes => negb (String.eqb bytes "")) (split "&" query)).

Definition newURLSearchParams (init : string) : URLSearchParams :=
  match init with
  | String "?" query => parse query
  | _ => parse init
  end.

(** *** The codec itself *)

(** What the URL carries: the slider level, the three checkboxes and
    the global [seed]. *)
Record State : Type := mkState
  { level : Z;
    mitigation : Mitigation;
    seed : Z }.

Definition flag (b : bool) : string := if b then "1" else "0".

(** [syncURL(levelCm)]; the checkbox state and the global [seed] it
    reads are arguments, and the result is [location.search] after
    [history.replaceState]. *)
Definition syncURL (levelCm : Z) (m : Mitigation) (seed : Z) : string :=
  let params : URLSearchParams := [] in
  let params := set params "level" (StringOf levelCm) in
  let params := set params "gr" (flag (greenRoofs m)) in
  let params := set params "pp" (flag (permeable m)) in
  let params := set params "tb" (flag (barriers m)) in
  let params :=
    if truthy seed then set params "seed" (StringOf seed) else params in
  "?" ++ toString params.

(** [readURL()] on a given [location.search]. *)
Definition readURL (search : string) : Z * Mitigation :=
  let p := newURLSearchParams search in
  let level := orElse (NumberOf (get p "level")) 120 in
  let m :=
    {| greenRoofs := match get p "gr" with Some "1" => true | _ => false end;
       permeable := match get p "pp" with Some "1" => true | _ => false end;
       barriers := match get p "tb" with Some "1" => true | _ => false end |}
  in
  (level, m).

(** The initialiser of the global:
    [Number(new URLSearchParams(location.search).get('seed')) || 1337]. *)
Definition readSeed (search : string) : Z :=
  orElse (NumberOf (get (newURLSearchParams search) "seed")) 1337.

Definition encode (s : State) : string :=
  syncURL (level s) (mitigation s) (seed s).

Definition decode (search : string) : State :=
  let (level, m) := readURL search in
  {| level := level; mitigation := m; seed := readSeed search |}.

End Codec.

(** ** The rest of the flood demo: polygon, markers, animation, modal
    images *)

Module Display.
Import Dataset Scenario.
Local Open Scope R_scope.

(** The constant [coords] of [generateFloodGeoJSON], as [[lng, lat]]. *)
Definition coords : list (R * R) :=
  [ (4.805, 45.800); (4.810, 45.790); (4.820, 45.780); (4.830, 45.772);
    (4.840, 45.765); (4.850, 45.758); (4.860, 45.750); (4.870, 45.742) ].

(** The local [width] of [generateFloodGeoJSON]. *)
Definition floodWidth (levelCm : R) (mitigation : Mitigation) : R :=
  let baseWidth := 0.005 + levelCm / 100000 in
  let attenuation := 1 - computeMitigationAttenuation mitigation in
  baseWidth * attenuation.

Definition leftBank (width : R) : list (R * R) :=
  map (fun c => let '(lng, lat) := c in (lng - width, lat + width)) coords.

Definition rightBank (width : R) : list (R * R) :=
  rev (map (fun c => let '(lng, lat) := c in (lng + width, lat - width)) coords).

(** The single feature of the collection: its [properties.levelCm] and
    the [coordinates] of its polygon (a list of rings). *)
Record FloodFeature : Type := mkFloodFeature
  { propertyLevelCm : R;
    coordinates : list (list (R * R)) }.

Definition generateFloodGeoJSON (levelCm : R) (mitigation : Mitigation)
  : FloodFeature :=
  let width := floodWidth levelCm mitigation in
  let polygon := [leftBank width ++ rightBank width] in
  {| propertyLevelCm := levelCm; coordinates := polygon |}.

(** The circle marker [renderBuildings] adds for one building. *)
Record Marker : Type := mkMarker
  { markerLat : R;
    markerLng : R;
    radius : R;
    fillColor : string }.

Definition markerFor (levelCm : R) (mitigation : Mitigation) (b : Building)
  : Marker :=
  let depth := depthAtPoint (lat b, lng b) levelCm mitigation in
  let affected := gtb depth 0.05 in
  let color :=
    if negb affected then "#7ee787"%string
    else if isCritical b then "#ff7b72"%string else "#f2cc60"%string in
  let radius := Rmax 3 (Rmin 10 (depth * 3 + 3)) in
  {| markerLat := lat b; markerLng := lng b;
     radius := radius; fillColor := color |}.

(** [buildingsLayer] after [renderBuildings]: cleared, then one
    [addLayer] per building. *)
Definition renderMarkers (bs : list Building) (levelCm : R)
  (mitigation : Mitigation) : list Marker :=
  fold_left (fun layer b => layer ++ [markerFor levelCm mitigation b]) bs [].

(** The function [step] inside [animateScenario], on its variable [t];
    [sliderMin] and [sliderMax] are [Number(slider.min)] and
    [Number(slider.max)], which the page markup fixes. *)
Definition animationStep (sliderMin sliderMax t : Z) : Z :=
  let t := (t + 3)%Z in
  if (t >? sliderMax)%Z then sliderMin else t.

(** [nearbyBuildings] of [showImageModal]. *)
Definition nearbyBuildings (bs : list Building) (lat0 lng0 : R) : nat :=
  List.length
    (filter (fun b => ltb (hypot (lat b - lat0) (lng b - lng0)) 0.01) bs).

(** The velocity [showImageModal] displays, before [toFixed]. *)
Definition modalVelocity (depth : R) : R := depth * 0.8.

(** [generateFloodOverlay(depth, width, height)]: the opacities of the
    two gradient stops and the heights of the dashed lines. *)
Definition overlayAlpha (depth : R) : R := Rmin 0.8 (depth * 0.4).

Definition overlayStops (depth : R) : R * R :=
  let alpha := overlayAlpha depth in (alpha, alpha * 0.3).

Definition overlayLines (depth height : R) : list R :=
  if gtb depth 0.5
  then map (fun i => height / 6 * (INR i + 1)) (seq 0 5)
  else [].

(** The four values [generateSyntheticSatellite] assigns for pixel
    [(x, y)], before the clamped array stores them. *)
Definition satellitePixel (x y : nat) : R * R * R * R :=
  let noise := (sin (INR x * 0.1) + cos (INR y * 0.1)) * 30 in
  let base := 60 + noise in
  if ((x + y) mod 40 <? 20)%nat
  then (base + 40, base + 60, base + 20, 255)
  else (base + 20, base + 30, base + 15, 255).

End Display.

(** ** The portfolio page script: cursor glow and active section *)

Module Portfolio.
Local Open Scope R_scope.

(** One call of [animate] in [initCursorGlow]: the glow moves 6% of the
    way to the last mouse position. *)
Definition glowStep (mouse glow : R * R) : R * R :=
  let glowX := fst glow + (fst mouse - fst glow) * 0.06 in
  let glowY := snd glow + (snd mouse - snd glow) * 0.06 in
  (glowX, glowY).

(** A [section[id]] element: its id, [offsetTop] and [offsetHeight]. *)
Record SectionBox : Type := mkSectionBox
  { sectionId : string;
    offsetTop : R;
    offsetHeight : R }.

(** [scrollY >= sectionTop && scrollY < sectionTop + sectionHeight]. *)
Definition inView (scrollY : R) (s : SectionBox) : bool :=
  let sectionTop := offsetTop s - 120 in
  let sectionHeight := offsetHeight s in
  (if Rge_dec scrollY sectionTop then true else false)
  && (if Rlt_dec scrollY (sectionTop + sectionHeight) then true else false).

(** The variable [current] after [sections.forEach]. *)
Definition currentSection (sections : list SectionBox) (scrollY : R) : string :=
  fold_left (fun current s => if inView scrollY s then sectionId s else current)
    sections ""%string.

(** Whether a link with the given [href] ends up with the class
    [active]. *)
Definition linkActive (sections : list SectionBox) (scrollY : R)
  (href : string) : bool :=
  String.eqb href ("#" ++ currentSection sections scrollY)%string.

End Portfolio.

(** ** The attenuation in binary64 *)

Module Binary64.
Import Scenario PrimFloat.
#[local] Set Warnings "-inexact-float".
Local Open Scope float_scope.

(** [Math.min(a, b)] on numbers that are not NaN. *)
Definition min64 (a b : float) : float := if a <? b then a else b.

Definition sumContributions64 (m : Mitigation) : float :=
  let atten := 0 in
  let atten := if greenRoofs m then atten + 0.08 else atten in
  let atten := if permeable m then atten + 0.10 else atten in
  let atten := if barriers m then atten + 0.12 else atten in
  atten.

Definition computeMitigationAttenuation64 (m : Mitigation) : float :=
  min64 0.35 (sumContributions64 m).

(** The doubles written [0.35] and [0.30]. *)
Definition cap64 : float := 0.35.
Definition allThree64 : float := 0.30.

End Binary64.

(** ** The vocabulary of the specification

    The quantities the specification speaks of, defined in its words and
    related to the code in Part II. *)

Module DatasetTerms.
Import Mulberry Dataset.

(** The value of the [k]-th call (counting from 0) of [mulberry32(seed)]:
    the state has then been advanced [k + 1] times. *)
Definition stream (seed : Z) (k : nat) : R :=
  (IZR (output (ToUint32 seed + (Z.of_nat k + 1) * 0x6D2B79F5)) / 4294967296)%R.

(** The record with index [i], built from four consecutive values of the
    stream in the order latitude, longitude, cost, criticality. *)
Definition recordAt (seed : Z) (i : nat) : Building :=
  {| id := Z.of_nat i + 1;
     lat := (fst lyonCenter + (stream seed (4 * i) - 0.5) * 0.05)%R;
     lng := (snd lyonCenter + (stream seed (4 * i + 1) - 0.5) * 0.08)%R;
     replacementCost := (100000 + stream seed (4 * i + 2) * 900000)%R;
     isCritical := ltb (stream seed (4 * i + 3)) 0.06 |}.

End DatasetTerms.

Module ScenarioTerms.
Import Dataset Scenario.
Local Open Scope R_scope.

(** The three checkboxes, to speak of switching one of them. *)
Inductive Flag : Type := GreenRoofs | Permeable | Barriers.

Definition setFlag (f : Flag) (v : bool) (m : Mitigation) : Mitigation :=
  match f with
  | GreenRoofs => {| greenRoofs := v; permeable := permeable m; barriers := barriers m |}
  | Permeable => {| greenRoofs := greenRoofs m; permeable := v; barriers := barriers m |}
  | Barriers => {| greenRoofs := greenRoofs m; permeable := permeable m; barriers := v |}
  end.

(** The contribution of one measure. *)
Definition contribution (f : Flag) : R :=
  match f with
  | GreenRoofs => 0.08
  | Permeable => 0.10
  | Barriers => 0.12
  end.

Definition share (f : Flag) (on : bool) : R := if on then contribution f else 0.

(** The curve before the cap, on a depth already clamped. *)
Definition rawRatio (d : R) : R := 1 - exp (- d * 0.8).

(** Distance from a point [[lat, lng]] to a centerline entry [[lng, lat]],
    as the loop computes it. *)
Definition vertexDistance (point c : R * R) : R :=
  hypot (fst point - snd c) (snd point - fst c).

(** The least of the distances to the entries of a line that starts
    with [c]. *)
Definition minVertexDistance (point : R * R) (c : R * R) (rest : list (R * R))
  : R :=
  fold_left Rmin (map (vertexDistance point) rest) (vertexDistance point c).

(** The least distance to the four centerline entries. *)
Definition centerlineDistance (point : R * R) : R :=
  match centerline with
  | c :: rest => minVertexDistance point c rest
  | [] => 0
  end.

(** Distance from [p] to the segment from [a] to [b] (all three as
    [(lat, lng)]): the distance to the nearest point of the segment. *)
Definition segmentDistance (p a b : R * R) : R :=
  let abx := fst b - fst a in
  let aby := snd b - snd a in
  let apx := fst p - fst a in
  let apy := snd p - snd a in
  let s := Rmax 0 (Rmin 1 ((apx * abx + apy * aby) / (abx * abx + aby * aby))) in
  hypot (fst p - (fst a + s * abx)) (snd p - (snd a + s * aby)).

(** A centerline entry [[lng, lat]] as a point [(lat, lng)]. *)
Definition vertex (c : R * R) : R * R := (snd c, fst c).

(** Distance from [p] to the polyline that joins consecutive entries. *)
Fixpoint polylineDistance (p : R * R) (a : R * R) (rest : list (R * R)) : option R :=
  match rest with
  | [] => None
  | b :: rest' =>
      let d := segmentDistance p (vertex a) (vertex b) in
      match polylineDistance p b rest' with
      | Some d' => Some (Rmin d d')
      | None => Some d
      end
  end.

(** The depth the polyline reading would give. *)
Definition polylineDepth (point : R * R) (levelCm : R) (m : Mitigation) : R :=
  let L := levelCm * (1 - computeMitigationAttenuation m) in
  match centerline with
  | a :: rest => depthFrom L (polylineDistance point a rest)
  | [] => 0
  end.

(** The per-record quantities, in the words of the specification. *)
Definition depthOf (levelCm : R) (m : Mitigation) (b : Building) : R :=
  depthAtPoint (lat b, lng b) levelCm m.

Definition affected (levelCm : R) (m : Mitigation) (b : Building) : bool :=
  gtb (depthOf levelCm m b) 0.05.

Definition damageOf (levelCm : R) (m : Mitigation) (b : Building) : R :=
  if affected levelCm m b
  then replacementCost b * depthDamageRatio (depthOf levelCm m b)
  else 0.

Fixpoint sumR (l : list R) : R :=
  match l with
  | [] => 0
  | x :: l' => x + sumR l'
  end.

Definition count {A} (f : A -> bool) (l : list A) : nat :=
  List.length (filter f l).

(** The reading of the specification: the total falls strictly, or stays
    equal with the attenuation at its cap. *)
Definition strictlyLessOrCapped (seed : Z) (levelCm : R) (m : Mitigation)
  (f : Flag) : Prop :=
  let on := renderBuildings seed levelCm (setFlag f true m) in
  let off := renderBuildings seed levelCm (setFlag f false m) in
  totalDamage on < totalDamage off
  \/ (totalDamage on = totalDamage off
      /\ computeMitigationAttenuation (setFlag f true m) = 0.35).

End ScenarioTerms.

Module CodecTerms.
Import Scenario Codec.
Local Open Scope string_scope.

(** Strings the serialiser leaves as they are. *)
Fixpoint plain (s : string) : bool :=
  match s with
  | EmptyString => true
  | String c s' => isUnreserved c && plain s'
  end.

(** The five parameters of the query string. *)
Inductive Param : Type := PLevel | PGr | PPp | PTb | PSeed.

Definition paramName (k : Param) : string :=
  match k with
  | PLevel => "level"
  | PGr => "gr"
  | PPp => "pp"
  | PTb => "tb"
  | PSeed => "seed"
  end.

Definition absent (k : Param) (search : string) : Prop :=
  get (newURLSearchParams search) (paramName k) = None.

(** The field that [k] feeds holds its default. *)
Definition defaulted (k : Param) (s : State) : Prop :=
  match k with
  | PLevel => level s = 120%Z
  | PGr => greenRoofs (mitigation s) = false
  | PPp => permeable (mitigation s) = false
  | PTb => barriers (mitigation s) = false
  | PSeed => seed s = 1337%Z
  end.

(** [s] does not contain the separator. *)
Fixpoint avoids (sep : ascii) (s : string) : bool :=
  match s with
  | EmptyString => true
  | String c s' => negb (Ascii.eqb c sep) && avoids sep s'
  end.

(** One name-value pair as it appears in the query string. *)
Definition pairString (kv : string * string) : string :=
  urlencode (fst kv) ++ "=" ++ urlencode (snd kv).

Definition plainPair (kv : string * string) : Prop :=
  plain (fst kv) = true /\ plain (snd kv) = true.

(** The parameters [syncURL] writes: the seed only when it is not 0. *)
Definition writtenParams (s : State) : URLSearchParams :=
  ([ ("level", StringOf (level s));
     ("gr", flag (greenRoofs (mitigation s)));
     ("pp", flag (permeable (mitigation s)));
     ("tb", flag (barriers (mitigation s))) ]
   ++ (if Z.eqb (seed s) 0 then [] else [("seed", StringOf (seed s))]))%list.

End CodecTerms.

(* ================================================================== *)
(** * Part II: properties *)
(* ================================================================== *)

(** ** Mitigation attenuation *)

Module AttenuationFacts.
Import Scenario ScenarioTerms.
Local Open Scope R_scope.

Lemma sumContributions_shares (m : Mitigation) :
  sumContributions m =
    share GreenRoofs (greenRoofs m) + share Permeable (permeable m)
    + share Barriers (barriers m).
Proof.
  unfold sumContributions, share, contribution.
  destruct (greenRoofs m), (permeable m), (barriers m); lra.
Qed.

Lemma sumContributions_range (m : Mitigation) :
  0 <= sumContributions m <= 0.30.
Proof.
  rewrite sumContributions_shares. unfold share, contribution.
  destruct (greenRoofs m), (permeable m), (barriers m); lra.
Qed.

(** The minimum with [0.35] is always its second argument. *)
Lemma attenuation_is_sum (m : Mitigation) :
  computeMitigationAttenuation m = sumContributions m.
Proof.
  unfold computeMitigationAttenuation.
  apply Rmin_right. pose proof (sumContributions_range m). lra.
Qed.

Lemma sumContributions_setFlag (f : Flag) (v : bool) (m : Mitigation) :
  sumContributions (setFlag f v m) =
    sumContributions (setFlag f false m) + share f v.
Proof.
  rewrite !sumContributions_shares.
  destruct f, v; unfold share, contribution; simpl; lra.
Qed.

Lemma contribution_pos (f : Flag) : 0 < contribution f.
Proof. destruct f; simpl; lra. Qed.

(** Switching a measure on raises the attenuation by exactly its
    contribution. *)
Lemma attenuation_toggle (f : Flag) (m : Mitigation) :
  computeMitigationAttenuation (setFlag f true m) =
    computeMitigationAttenuation (setFlag f false m) + contribution f.
Proof.
  rewrite !attenuation_is_sum, (sumContributions_setFlag f true). reflexivity.
Qed.

(** C7: the attenuation is the sum of the contributions 0.08, 0.10 and
    0.12 of the measures that are switched on, capped at 0.35; it lies in
    [0, 0.35]; and switching any one measure on never lowers it. *)
Theorem mitigationAttenuation_capped_sum_monotone (m : Mitigation) :
  computeMitigationAttenuation m =
    Rmin 0.35
      ((if greenRoofs m then 0.08 else 0)
       + (if permeable m then 0.10 else 0)
       + (if barriers m then 0.12 else 0))
  /\ 0 <= computeMitigationAttenuation m <= 0.35
  /\ (forall f : Flag,
        computeMitigationAttenuation (setFlag f false m)
        <= computeMitigationAttenuation (setFlag f true m)).
Proof.
  split; [|split].
  - unfold computeMitigationAttenuation. f_equal.
    apply sumContributions_shares.
  - rewrite attenuation_is_sum.
    pose proof (sumContributions_range m). lra.
  - intro f. rewrite attenuation_toggle.
    pose proof (contribution_pos f). lra.
Qed.

(** C10: the attenuation never exceeds 0.30, the value reached with all
    three measures on; it is therefore always below the 0.35 cap, and
    [Math.min(0.35, atten)] returns [atten] unchanged. *)
Theorem mitigationAttenuation_cap_never_attained (m : Mitigation) :
  computeMitigationAttenuation m <= 0.30
  /\ computeMitigationAttenuation (mkMitigation true true true) = 0.08 + 0.10 + 0.12
  /\ computeMitigationAttenuation m < 0.35
  /\ computeMitigationAttenuation m = sumContributions m.
Proof.
  pose proof (sumContributions_range m) as Hr.
  rewrite !attenuation_is_sum.
  repeat split; try lra.
  unfold sumContributions; simpl; lra.
Qed.

(** In binary64 as on [R]: the attenuation never exceeds the double
    0.30, stays below the cap, and the minimum returns the sum. *)
Lemma attenuation_binary64 (m : Mitigation) :
  PrimFloat.leb (Binary64.computeMitigationAttenuation64 m) Binary64.allThree64
  = true
  /\ PrimFloat.ltb (Binary64.computeMitigationAttenuation64 m) Binary64.cap64
     = true
  /\ Binary64.computeMitigationAttenuation64 m = Binary64.sumContributions64 m.
Proof. destruct m as [[] [] []]; vm_compute; auto. Qed.

End AttenuationFacts.

(** ** Depth-damage curve *)

Module DamageFacts.
Import Scenario ScenarioTerms.
Local Open Scope R_scope.

Lemma rawRatio_increasing (d1 d2 : R) :
  d1 < d2 -> rawRatio d1 < rawRatio d2.
Proof.
  intros H. unfold rawRatio.
  assert (exp (- d2 * 0.8) < exp (- d1 * 0.8)) by (apply exp_increasing; lra).
  lra.
Qed.

Lemma rawRatio_monotone (d1 d2 : R) :
  d1 <= d2 -> rawRatio d1 <= rawRatio d2.
Proof.
  intros [H | ->]; [left; now apply rawRatio_increasing | lra].
Qed.

Lemma rawRatio_0 : rawRatio 0 = 0.
Proof.
  unfold rawRatio. replace (- 0 * 0.8) with 0 by lra. rewrite exp_0. lra.
Qed.

Lemma rawRatio_nonneg (d : R) : 0 <= d -> 0 <= rawRatio d.
Proof.
  intros H. rewrite <- rawRatio_0. now apply rawRatio_monotone.
Qed.

Lemma depthDamageRatio_raw (d : R) :
  depthDamageRatio d = Rmin 0.95 (rawRatio (Rmax 0 d)).
Proof. reflexivity. Qed.

Lemma depthDamageRatio_0 : depthDamageRatio 0 = 0.
Proof.
  rewrite depthDamageRatio_raw, Rmax_left by lra.
  rewrite rawRatio_0. apply Rmin_right. lra.
Qed.

Lemma depthDamageRatio_range (d : R) : 0 <= depthDamageRatio d <= 0.95.
Proof.
  rewrite depthDamageRatio_raw. split.
  - apply Rmin_glb; [lra | apply rawRatio_nonneg, Rmax_l].
  - apply Rmin_l.
Qed.

Lemma depthDamageRatio_monotone (d1 d2 : R) :
  d1 <= d2 -> depthDamageRatio d1 <= depthDamageRatio d2.
Proof.
  intros H. rewrite !depthDamageRatio_raw.
  apply Rle_min_compat_l, rawRatio_monotone, Rle_max_compat_l, H.
Qed.

(** [e^4 > 20], so the cap is reached from 5 m on. *)
Lemma exp_4_gt_20 : 20 < exp 4.
Proof.
  assert (H : 1 + 1 / 2 < exp (1 / 2)) by (apply exp_ineq1; lra).
  assert (H1 : exp 1 = exp (1 / 2) * exp (1 / 2))
    by (rewrite <- exp_plus; f_equal; lra).
  assert (H2 : exp 2 = exp 1 * exp 1) by (rewrite <- exp_plus; f_equal; lra).
  assert (H4 : exp 4 = exp 2 * exp 2) by (rewrite <- exp_plus; f_equal; lra).
  assert (2.25 < exp 1) by nra.
  assert (5.0625 < exp 2) by nra.
  nra.
Qed.

Lemma depthDamageRatio_capped (d : R) : 5 <= d -> depthDamageRatio d = 0.95.
Proof.
  intros H. rewrite depthDamageRatio_raw, Rmax_right by lra.
  apply Rmin_left. unfold rawRatio.
  assert (Hle : exp (- d * 0.8) <= exp (- 4)).
  { destruct H as [H | <-].
    - left. apply exp_increasing. lra.
    - right. f_equal. lra. }
  pose proof exp_4_gt_20 as H20.
  assert (Hinv : exp (- 4) * exp 4 = 1)
    by (rewrite <- exp_plus; replace (- 4 + 4) with 0 by lra; apply exp_0).
  pose proof (exp_pos (- 4)) as Hpos.
  assert (exp (- 4) < 0.05) by nra.
  lra.
Qed.

(** C8: the ratio is [1 - e^(-0.8 * max(0, d))] capped at 0.95; it is 0
    at depth 0, lies in [0, 0.95], and is non-decreasing in the depth. *)
Theorem damageRatio_formula_range_monotone (d1 d2 : R) (H : d1 <= d2) :
  depthDamageRatio d1 = Rmin 0.95 (1 - exp (- 0.8 * Rmax 0 d1))
  /\ depthDamageRatio 0 = 0
  /\ 0 <= depthDamageRatio d1 <= 0.95
  /\ depthDamageRatio d1 <= depthDamageRatio d2.
Proof.
  split; [|split; [|split]].
  - unfold depthDamageRatio. do 3 f_equal. lra.
  - apply depthDamageRatio_0.
  - apply depthDamageRatio_range.
  - now apply depthDamageRatio_monotone.
Qed.

Lemma damageRatio_formula_range_monotone_witness :
  1 <= 2
  /\ depthDamageRatio 1 = Rmin 0.95 (1 - exp (- 0.8 * Rmax 0 1))
  /\ depthDamageRatio 0 = 0
  /\ 0 <= depthDamageRatio 1 <= 0.95
  /\ depthDamageRatio 1 <= depthDamageRatio 2.
Proof.
  split; [lra | apply (damageRatio_formula_range_monotone 1 2); lra].
Defined.

(** C4, as the code has it: the ratio is non-decreasing in the depth, not
    strictly increasing, and never above 0.95; the value 0.95 is reached,
    not only approached: it is taken at 5 m and at every greater depth. *)
Theorem damageRatio_nondecreasing_cap_reached (d1 d2 : R)
  (H0 : 0 <= d1) (H12 : d1 < d2) :
  depthDamageRatio d1 <= depthDamageRatio d2
  /\ depthDamageRatio d2 <= 0.95
  /\ (5 <= d1 -> depthDamageRatio d1 = 0.95 /\ depthDamageRatio d2 = 0.95).
Proof.
  split; [| split].
  - apply depthDamageRatio_monotone. lra.
  - apply depthDamageRatio_range.
  - intros H5. split; apply depthDamageRatio_capped; lra.
Qed.

Lemma damageRatio_nondecreasing_cap_reached_witness :
  0 <= 5 /\ 5 < 6
  /\ depthDamageRatio 5 <= depthDamageRatio 6
  /\ depthDamageRatio 6 <= 0.95
  /\ (5 <= 5 -> depthDamageRatio 5 = 0.95 /\ depthDamageRatio 6 = 0.95).
Proof.
  split; [lra | split; [lra |]].
  apply (damageRatio_nondecreasing_cap_reached 5 6); lra.
Defined.

(** Strict increase does not hold on all depths: 5 m and 6 m both give
    0.95. *)
Lemma damageRatio_not_strictly_increasing :
  0 <= 5 /\ 5 < 6 /\ ~ depthDamageRatio 5 < depthDamageRatio 6.
Proof.
  split; [lra | split; [lra |]].
  rewrite !depthDamageRatio_capped by lra. lra.
Qed.

End DamageFacts.

(** ** Depth field *)

Module DepthFacts.
Import Scenario ScenarioTerms.
Local Open Scope R_scope.

Lemma hypot_nonneg (x y : R) : 0 <= hypot x y.
Proof. apply sqrt_pos. Qed.

Lemma hypot_ge_abs (x y : R) : Rabs x <= hypot x y.
Proof.
  unfold hypot. rewrite <- (sqrt_Rsqr_abs x).
  apply sqrt_le_1_alt. unfold Rsqr. nra.
Qed.

Lemma hypot_0_0 : hypot 0 0 = 0.
Proof.
  unfold hypot. replace (0 * 0 + 0 * 0) with 0 by lra. apply sqrt_0.
Qed.

Lemma minDistStep_some (point : R * R) (a : R) (c : R * R) :
  minDistStep point (Some a) c = Some (Rmin a (vertexDistance point c)).
Proof.
  destruct c as [lng lat]. unfold minDistStep, ltMinDist, vertexDistance.
  simpl fst; simpl snd.
  set (d := hypot _ _). unfold Rmin.
  destruct (Rlt_dec d a), (Rle_dec a d); try reflexivity; f_equal; lra.
Qed.

Lemma minDistLoop_some (point : R * R) (line : list (R * R)) (a : R) :
  fold_left (minDistStep point) line (Some a) =
    Some (fold_left Rmin (map (vertexDistance point) line) a).
Proof.
  revert a. induction line as [|c line IH]; intro a; simpl.
  - reflexivity.
  - rewrite minDistStep_some. apply IH.
Qed.

(** The loop returns the least vertex distance; it returns [Infinity]
    only on an empty line. *)
Lemma minDistOver_cons (point c : R * R) (rest : list (R * R)) :
  minDistOver (c :: rest) point = Some (minVertexDistance point c rest).
Proof.
  unfold minDistOver, minVertexDistance. simpl.
  replace (minDistStep point None c) with (Some (vertexDistance point c))
    by (destruct c; reflexivity).
  apply minDistLoop_some.
Qed.

Lemma fold_Rmin_le_init (l : list R) (a : R) : fold_left Rmin l a <= a.
Proof.
  revert a. induction l as [|x l IH]; intro a; simpl.
  - lra.
  - eapply Rle_trans; [apply IH | apply Rmin_l].
Qed.

Lemma fold_Rmin_lower (l : list R) (a : R) :
  Forall (fun x => fold_left Rmin l a <= x) (a :: l).
Proof.
  constructor; [apply fold_Rmin_le_init |].
  revert a. induction l as [|x l IH]; intro a; simpl; constructor.
  - eapply Rle_trans; [apply fold_Rmin_le_init | apply Rmin_r].
  - apply IH.
Qed.

Lemma fold_Rmin_attained (l : list R) (a : R) : In (fold_left Rmin l a) (a :: l).
Proof.
  revert a. induction l as [|x l IH]; intro a; simpl.
  - now left.
  - destruct (IH (Rmin a x)) as [E | HIn].
    + rewrite <- E. unfold Rmin. destruct (Rle_dec a x); auto.
    + auto.
Qed.

Lemma minVertexDistance_lower (point c : R * R) (rest : list (R * R)) :
  Forall (fun v => minVertexDistance point c rest <= vertexDistance point v)
    (c :: rest).
Proof.
  pose proof (fold_Rmin_lower (map (vertexDistance point) rest)
                (vertexDistance point c)) as H.
  change (vertexDistance point c :: map (vertexDistance point) rest)
    with (map (vertexDistance point) (c :: rest)) in H.
  rewrite Forall_map in H. exact H.
Qed.

Lemma minVertexDistance_attained (point c : R * R) (rest : list (R * R)) :
  Exists (fun v => minVertexDistance point c rest = vertexDistance point v)
    (c :: rest).
Proof.
  pose proof (fold_Rmin_attained (map (vertexDistance point) rest)
                (vertexDistance point c)) as H.
  change (vertexDistance point c :: map (vertexDistance point) rest)
    with (map (vertexDistance point) (c :: rest)) in H.
  apply in_map_iff in H. destruct H as [v [E HIn]].
  apply Exists_exists. exists v. split; [exact HIn | now symmetry].
Qed.

Lemma minVertexDistance_nonneg (point c : R * R) (rest : list (R * R)) :
  0 <= minVertexDistance point c rest.
Proof.
  pose proof (minVertexDistance_attained point c rest) as H.
  apply Exists_exists in H. destruct H as [v [_ ->]]. apply hypot_nonneg.
Qed.

Lemma depthAtPoint_formula (point : R * R) (levelCm : R) (m : Mitigation) :
  depthAtPoint point levelCm m =
    Rmax 0 (levelCm * (1 - computeMitigationAttenuation m) / 100
            - centerlineDistance point * 200).
Proof.
  unfold depthAtPoint, centerlineDistance, centerline.
  rewrite minDistOver_cons. reflexivity.
Qed.

Lemma depthAtPoint_nonneg (point : R * R) (levelCm : R) (m : Mitigation) :
  0 <= depthAtPoint point levelCm m.
Proof. rewrite depthAtPoint_formula. apply Rmax_l. Qed.

Lemma centerlineDistance_nonneg (point : R * R) : 0 <= centerlineDistance point.
Proof. apply minVertexDistance_nonneg. Qed.

(** *** Distance to the polyline through the four entries *)

Lemma segmentDistance_nonneg (p a b : R * R) : 0 <= segmentDistance p a b.
Proof. apply hypot_nonneg. Qed.

(** C1, as the code has it: the depth is the attenuated level
    [levelCm * (1 - attenuation)] divided by 100, less 200 times the least
    Euclidean distance from the point to the four centerline entries,
    floored at zero; it is never negative. *)
Theorem depthAtPoint_nearest_vertex (point : R * R) (levelCm : R) (m : Mitigation) :
  Forall (fun c => centerlineDistance point
                   <= hypot (fst point - snd c) (snd point - fst c))
    centerline
  /\ Exists (fun c => centerlineDistance point
                      = hypot (fst point - snd c) (snd point - fst c))
       centerline
  /\ depthAtPoint point levelCm m =
       Rmax 0 (levelCm * (1 - computeMitigationAttenuation m) / 100
               - centerlineDistance point * 200)
  /\ 0 <= depthAtPoint point levelCm m.
Proof.
  split; [|split; [|split]].
  - apply (minVertexDistance_lower point).
  - apply (minVertexDistance_attained point).
  - apply depthAtPoint_formula.
  - apply depthAtPoint_nonneg.
Qed.

(** The point halfway between the first two centerline entries lies on
    the polyline, at distance 0.0075 from the nearest entry. *)
Lemma polylineDepth_midpoint :
  polylineDepth (45.7875, 4.835) 100 (mkMitigation false false false) = 1.
Proof.
  assert (Hatt : computeMitigationAttenuation (mkMitigation false false false) = 0).
  { rewrite AttenuationFacts.attenuation_is_sum. reflexivity. }
  unfold polylineDepth, centerline. rewrite Hatt.
  cbn [polylineDistance depthFrom].
  set (d2 := segmentDistance _ (vertex (4.835, 45.780)) _).
  set (d3 := segmentDistance _ (vertex (4.835, 45.765)) _).
  assert (H1 : segmentDistance (45.7875, 4.835) (vertex (4.835, 45.795))
                 (vertex (4.835, 45.780)) = 0).
  { unfold segmentDistance, vertex. cbn [fst snd].
    replace (((45.7875 - 45.795) * (45.780 - 45.795)
              + (4.835 - 4.835) * (4.835 - 4.835))
             / ((45.780 - 45.795) * (45.780 - 45.795)
                + (4.835 - 4.835) * (4.835 - 4.835))) with (1 / 2) by lra.
    rewrite (Rmin_right 1 (1 / 2)), (Rmax_right 0 (1 / 2)) by lra.
    replace (45.7875 - (45.795 + 1 / 2 * (45.780 - 45.795))) with 0 by lra.
    replace (4.835 - (4.835 + 1 / 2 * (4.835 - 4.835))) with 0 by lra.
    apply hypot_0_0. }
  rewrite H1.
  pose proof (segmentDistance_nonneg (45.7875, 4.835)
                (vertex (4.835, 45.780)) (vertex (4.835, 45.765))) as H2.
  pose proof (segmentDistance_nonneg (45.7875, 4.835)
                (vertex (4.835, 45.765)) (vertex (4.835, 45.750))) as H3.
  fold d2 in H2. fold d3 in H3.
  rewrite (Rmin_left 0 (Rmin d2 d3)) by (apply Rmin_glb; assumption).
  rewrite Rmax_right by lra. lra.
Qed.

Lemma depthAtPoint_midpoint :
  depthAtPoint (45.7875, 4.835) 100 (mkMitigation false false false) = 0.
Proof.
  assert (Hatt : computeMitigationAttenuation (mkMitigation false false false) = 0).
  { rewrite AttenuationFacts.attenuation_is_sum. reflexivity. }
  rewrite depthAtPoint_formula, Hatt.
  apply Rmax_left.
  assert (0.0075 <= centerlineDistance (45.7875, 4.835)); [| lra].
  pose proof (minVertexDistance_attained (45.7875, 4.835)
                (4.835, 45.795)
                [(4.835, 45.780); (4.835, 45.765); (4.835, 45.750)]) as H.
  apply Exists_exists in H. destruct H as [v [HIn E]].
  unfold centerlineDistance, centerline. rewrite E.
  eapply Rle_trans; [| apply hypot_ge_abs].
  simpl in HIn.
  destruct HIn as [<- | [<- | [<- | [<- | []]]]]; cbn [fst snd];
    unfold Rabs; destruct (Rcase_abs _); lra.
Qed.

(** At that point, at 100 cm without mitigation, the distance to the
    polyline gives a depth of 1 m and the code returns 0. *)
Lemma depthAtPoint_not_polyline_distance :
  depthAtPoint (45.7875, 4.835) 100 (mkMitigation false false false)
  <> polylineDepth (45.7875, 4.835) 100 (mkMitigation false false false).
Proof. rewrite depthAtPoint_midpoint, polylineDepth_midpoint. lra. Qed.

End DepthFacts.

(** ** The generator and the dataset *)

Module DatasetFacts.
Import Mulberry Dataset DatasetTerms.

(** The first numerators of the stream for the default seed 1337, and
    the last one used by the 400 records. *)
Example output_seed_1337 :
  map (fun k => output (ToUint32 1337 + k * 0x6D2B79F5)) [1; 2; 3; 1600]%Z
  = [792042790; 815997621; 3480950701; 1297609238]%Z.
Proof. vm_compute. reflexivity. Qed.

Lemma output_range (x : Z) : (0 <= output x < 4294967296)%Z.
Proof.
  unfold output, ToUint32. change (2 ^ 32)%Z with 4294967296%Z.
  apply Z.mod_pos_bound. lia.
Qed.

Lemma stream_range (seed : Z) (k : nat) : (0 <= stream seed k < 1)%R.
Proof.
  unfold stream.
  destruct (output_range (ToUint32 seed + (Z.of_nat k + 1) * 0x6D2B79F5))
    as [Hlo Hhi].
  apply IZR_le in Hlo. apply IZR_lt in Hhi.
  split.
  - apply Rmult_le_pos; [exact Hlo | lra].
  - apply Rmult_lt_reg_r with 4294967296%R; [lra |].
    unfold Rdiv. rewrite Rmult_assoc, Rinv_l by lra. lra.
Qed.

(** One record costs four calls. *)
Lemma building_run (seed : Z) (i : nat) (d : nat) :
  building i
    {| t := ToUint32 seed + Z.of_nat (4 * i) * 0x6D2B79F5; draws := d + 4 * i |}
  = (recordAt seed i,
     {| t := ToUint32 seed + Z.of_nat (4 * S i) * 0x6D2B79F5;
        draws := d + 4 * S i |}).
Proof.
  unfold building, bind, rand, ret, recordAt, stream. cbn [t draws].
  set (t0 := (ToUint32 seed + Z.of_nat (4 * i) * 0x6D2B79F5)%Z).
  replace (ToUint32 seed + (Z.of_nat (4 * i + 3) + 1) * 0x6D2B79F5)%Z
    with (t0 + 0x6D2B79F5 + 0x6D2B79F5 + 0x6D2B79F5 + 0x6D2B79F5)%Z
    by (unfold t0; lia).
  replace (ToUint32 seed + (Z.of_nat (4 * i + 2) + 1) * 0x6D2B79F5)%Z
    with (t0 + 0x6D2B79F5 + 0x6D2B79F5 + 0x6D2B79F5)%Z by (unfold t0; lia).
  replace (ToUint32 seed + (Z.of_nat (4 * i + 1) + 1) * 0x6D2B79F5)%Z
    with (t0 + 0x6D2B79F5 + 0x6D2B79F5)%Z by (unfold t0; lia).
  replace (ToUint32 seed + (Z.of_nat (4 * i) + 1) * 0x6D2B79F5)%Z
    with (t0 + 0x6D2B79F5)%Z by (unfold t0; lia).
  f_equal. f_equal; [unfold t0 |]; lia.
Qed.

Lemma mapRand_building (seed : Z) (d : nat) (n start : nat) :
  mapRand building (seq start n)
    {| t := ToUint32 seed + Z.of_nat (4 * start) * 0x6D2B79F5;
       draws := d + 4 * start |}
  = (map (recordAt seed) (seq start n),
     {| t := ToUint32 seed + Z.of_nat (4 * (start + n)) * 0x6D2B79F5;
        draws := d + 4 * (start + n) |}).
Proof.
  revert start. induction n as [|n IH]; intro start.
  - cbn [seq mapRand map]. unfold ret. now rewrite Nat.add_0_r.
  - cbn [seq mapRand map]. unfold bind at 1.
    rewrite building_run. unfold bind at 1. rewrite IH. unfold ret.
    now replace (S start + n) with (start + S n) by lia.
Qed.

Lemma buildingsFrom_run (seed : Z) (n : nat) :
  buildingsFrom n (mulberry32 seed)
  = (map (recordAt seed) (seq 0 n),
     {| t := ToUint32 seed + Z.of_nat (4 * n) * 0x6D2B79F5; draws := 4 * n |}).
Proof.
  unfold buildingsFrom, mulberry32.
  pose proof (mapRand_building seed 0 n 0) as H.
  cbn [Nat.mul Nat.add Z.of_nat] in H.
  replace (ToUint32 seed + 0 * 0x6D2B79F5)%Z with (ToUint32 seed) in H by lia.
  exact H.
Qed.

Lemma buildings_records (seed : Z) :
  buildings seed = map (recordAt seed) (seq 0 400).
Proof. unfold buildings. now rewrite buildingsFrom_run. Qed.

Lemma recordAt_cost (seed : Z) (i : nat) :
  (100000 <= replacementCost (recordAt seed i) < 1000000)%R.
Proof.
  cbn [recordAt replacementCost].
  pose proof (stream_range seed (4 * i + 2)). lra.
Qed.

Lemma buildings_cost (seed : Z) :
  Forall (fun b => (100000 <= replacementCost b < 1000000)%R) (buildings seed).
Proof.
  rewrite buildings_records. apply Forall_map, Forall_forall.
  intros i _. apply recordAt_cost.
Qed.

(** C3, as the code has it: building [n] records calls the generator
    [4 * n] times, four calls per record in the fixed order latitude
    jitter, longitude jitter, cost, criticality (so [2 * n] calls for the
    jitters and [2 * n] for cost and criticality); the dataset is the
    function [recordAt] of the seed and the index, and has 400 records. *)
Theorem buildings_draw_count_and_order (seed : Z) (n : nat) :
  draws (snd (buildingsFrom n (mulberry32 seed))) = 4 * n
  /\ fst (buildingsFrom n (mulberry32 seed)) = map (recordAt seed) (seq 0 n)
  /\ buildings seed = map (recordAt seed) (seq 0 400)
  /\ List.length (buildings seed) = 400.
Proof.
  rewrite buildingsFrom_run, buildings_records. cbn [fst snd draws].
  split; [reflexivity | split; [reflexivity | split; [reflexivity |]]].
  now rewrite length_map, length_seq.
Qed.

(** For the 400 records the stream is consumed 1600 times, not 1200. *)
Lemma buildings_draws_not_3N :
  draws (snd (buildingsFrom 400 (mulberry32 1337))) <> 3 * 400.
Proof. rewrite buildingsFrom_run. cbn [snd draws]. lia. Qed.

End DatasetFacts.

(** ** The aggregate pass *)

Module AggregateFacts.
Import Dataset Scenario ScenarioTerms AttenuationFacts DamageFacts DepthFacts.
Local Open Scope R_scope.

Lemma gtb_true_iff (a b : R) : gtb a b = true <-> a > b.
Proof.
  unfold gtb. destruct (Rgt_dec a b); split; intros; auto; discriminate.
Qed.

Lemma gtb_false_iff (a b : R) : gtb a b = false <-> a <= b.
Proof.
  unfold gtb. destruct (Rgt_dec a b); split; intros; auto;
    try discriminate; lra.
Qed.

Lemma renderStep_spec (levelCm : R) (m : Mitigation) (acc : Kpi) (b : Building) :
  renderStep levelCm m acc b =
    {| totalDamage := totalDamage acc + damageOf levelCm m b;
       affectedCount :=
         (affectedCount acc + if affected levelCm m b then 1 else 0)%nat;
       criticalCount :=
         (criticalCount acc
          + if affected levelCm m b && isCritical b then 1 else 0)%nat |}.
Proof.
  unfold renderStep, damageOf, affected, depthOf.
  destruct (gtb _ 0.05), (isCritical b); cbn [andb]; f_equal; lra || lia.
Qed.

Lemma renderLoop_spec (levelCm : R) (m : Mitigation) (bs : list Building)
  (acc : Kpi) :
  fold_left (renderStep levelCm m) bs acc =
    {| totalDamage := totalDamage acc + sumR (map (damageOf levelCm m) bs);
       affectedCount := (affectedCount acc + count (affected levelCm m) bs)%nat;
       criticalCount :=
         (criticalCount acc
          + count (fun b => affected levelCm m b && isCritical b) bs)%nat |}.
Proof.
  revert acc. induction bs as [|b bs IH]; intro acc.
  - destruct acc. cbn. f_equal; lra || lia.
  - cbn [fold_left]. rewrite IH, renderStep_spec.
    cbn [totalDamage affectedCount criticalCount map sumR].
    unfold count. cbn [filter].
    destruct (affected levelCm m b), (isCritical b);
      cbn [andb List.length]; f_equal; lra || lia.
Qed.

Lemma renderBuildingsOver_spec (bs : list Building) (levelCm : R)
  (m : Mitigation) :
  renderBuildingsOver bs levelCm m =
    {| totalDamage := sumR (map (damageOf levelCm m) bs);
       affectedCount := count (affected levelCm m) bs;
       criticalCount :=
         count (fun b => affected levelCm m b && isCritical b) bs |}.
Proof.
  unfold renderBuildingsOver. rewrite renderLoop_spec.
  cbn [totalDamage affectedCount criticalCount]. f_equal; lra || lia.
Qed.

(** C6: the pass computes the depth of each record, counts it as
    affected exactly when its depth is above 0.05 m, takes
    [replacementCost * damageRatio(depth)] as its damage if it is affected
    and 0 otherwise, and returns the sum of the damages, the number of
    affected records and the number of records both affected and
    critical. *)
Theorem aggregate_pass (bs : list Building) (levelCm : R) (m : Mitigation) :
  renderBuildingsOver bs levelCm m =
    {| totalDamage := sumR (map (damageOf levelCm m) bs);
       affectedCount := count (affected levelCm m) bs;
       criticalCount :=
         count (fun b => affected levelCm m b && isCritical b) bs |}
  /\ (forall b, affected levelCm m b = true
                <-> depthAtPoint (lat b, lng b) levelCm m > 0.05)
  /\ (forall b, damageOf levelCm m b =
                if affected levelCm m b
                then replacementCost b
                     * depthDamageRatio (depthAtPoint (lat b, lng b) levelCm m)
                else 0)
  /\ (forall seed, renderBuildings seed levelCm m
                   = renderBuildingsOver (buildings seed) levelCm m).
Proof.
  split; [apply renderBuildingsOver_spec | split; [| split]].
  - intro b. apply gtb_true_iff.
  - reflexivity.
  - reflexivity.
Qed.

End AggregateFacts.

(** ** Switching a mitigation measure on *)

Module ToggleFacts.
Import Dataset Scenario ScenarioTerms AttenuationFacts DamageFacts DepthFacts AggregateFacts.
Local Open Scope R_scope.

Section Toggle.

Variables (levelCm : R) (m : Mitigation) (f : Flag).

Let on := setFlag f true m.
Let off := setFlag f false m.

Lemma attenuation_off_range : 0 <= computeMitigationAttenuation off <= 0.30.
Proof.
  rewrite attenuation_is_sum. apply sumContributions_range.
Qed.

Lemma attenuation_on_range : 0 <= computeMitigationAttenuation on <= 0.30.
Proof.
  rewrite attenuation_is_sum. apply sumContributions_range.
Qed.

Lemma depth_toggle_le (p : R * R) :
  depthAtPoint p levelCm on <= depthAtPoint p levelCm off.
Proof.
  rewrite !depthAtPoint_formula.
  pose proof attenuation_off_range as Hoff.
  pose proof attenuation_on_range as Hon.
  pose proof (attenuation_toggle f m) as Ht. fold on off in Ht.
  pose proof (contribution_pos f) as Hc.
  pose proof (centerlineDistance_nonneg p) as Hd.
  set (aon := computeMitigationAttenuation on) in *.
  set (aoff := computeMitigationAttenuation off) in *.
  set (md := centerlineDistance p) in *.
  destruct (Rle_dec 0 levelCm) as [Hl | Hl].
  - apply Rle_max_compat_l. nra.
  - rewrite !Rmax_left by nra. lra.
Qed.

(** From the affected threshold on the ratio is positive. *)
Lemma depthDamageRatio_pos (d : R) : 0.05 <= d -> 0 < depthDamageRatio d.
Proof.
  intros H. apply Rlt_le_trans with (depthDamageRatio 0.05).
  - rewrite depthDamageRatio_raw, Rmax_right by lra.
    apply Rmin_glb_lt; [lra |]. unfold rawRatio.
    match goal with
    | |- context [exp ?x] =>
        assert (exp x < exp 0) by (apply exp_increasing; lra)
    end.
    rewrite exp_0 in *. lra.
  - now apply depthDamageRatio_monotone.
Qed.

Lemma damage_toggle_le (b : Building) :
  0 <= replacementCost b ->
  damageOf levelCm on b <= damageOf levelCm off b.
Proof.
  intros Hc. unfold damageOf, affected, depthOf.
  pose proof (depth_toggle_le (lat b, lng b)) as Hd.
  set (don := depthAtPoint _ levelCm on) in *.
  set (doff := depthAtPoint _ levelCm off) in *.
  pose proof (depthDamageRatio_monotone don doff Hd) as Hm.
  pose proof (depthDamageRatio_range don) as Hron.
  pose proof (depthDamageRatio_range doff) as Hroff.
  destruct (gtb don 0.05) eqn:Eon, (gtb doff 0.05) eqn:Eoff; try nra.
  apply gtb_true_iff in Eon. apply gtb_false_iff in Eoff. lra.
Qed.

Lemma total_toggle_le (bs : list Building) :
  Forall (fun b => 0 < replacementCost b) bs ->
  sumR (map (damageOf levelCm on) bs) <= sumR (map (damageOf levelCm off) bs).
Proof.
  induction 1 as [|b bs Hb _ IH]; cbn [map sumR]; [lra |].
  pose proof (damage_toggle_le b (Rlt_le _ _ Hb)). lra.
Qed.

End Toggle.

Lemma buildings_cost_pos (seed : Z) :
  Forall (fun b => 0 < replacementCost b) (buildings seed).
Proof.
  eapply Forall_impl; [| apply DatasetFacts.buildings_cost].
  cbv beta. intros b H. lra.
Qed.

Lemma totalDamage_sum (seed : Z) (levelCm : R) (m : Mitigation) :
  totalDamage (renderBuildings seed levelCm m) =
    sumR (map (damageOf levelCm m) (buildings seed)).
Proof.
  unfold renderBuildings. now rewrite renderBuildingsOver_spec.
Qed.

(** With the level at 0 no record is affected, whatever the measures. *)
Lemma depthAtPoint_level_0 (p : R * R) (m : Mitigation) :
  depthAtPoint p 0 m = 0.
Proof.
  rewrite depthAtPoint_formula. apply Rmax_left.
  pose proof (centerlineDistance_nonneg p). lra.
Qed.

Lemma totalDamage_level_0 (seed : Z) (m : Mitigation) :
  totalDamage (renderBuildings seed 0 m) = 0.
Proof.
  rewrite totalDamage_sum.
  induction (buildings seed) as [|b bs IH]; cbn [map sumR]; [reflexivity |].
  rewrite IH. unfold damageOf, affected, depthOf.
  rewrite depthAtPoint_level_0.
  replace (gtb 0 0.05) with false
    by (symmetry; apply gtb_false_iff; lra).
  lra.
Qed.

(** C5, as the code has it: switching any one measure on never raises
    the total damage of the dataset: it lowers it or leaves it equal.
    Equality is not tied to the attenuation cap, which the attenuation
    never reaches. *)
Theorem toggle_never_increases_total (seed : Z) (levelCm : R) (m : Mitigation)
  (f : Flag) :
  totalDamage (renderBuildings seed levelCm (setFlag f true m))
  <= totalDamage (renderBuildings seed levelCm (setFlag f false m))
  /\ computeMitigationAttenuation (setFlag f true m) < 0.35.
Proof.
  rewrite !totalDamage_sum. split.
  - apply total_toggle_le, buildings_cost_pos.
  - pose proof (attenuation_on_range m f). lra.
Qed.

(** At level 0 with no measure on, switching the green roofs on leaves
    the total at 0 while the attenuation is 0.08, not 0.35. *)
Lemma toggle_not_strict_at_level_0 :
  ~ strictlyLessOrCapped 1337 0 (mkMitigation false false false) GreenRoofs.
Proof.
  unfold strictlyLessOrCapped. cbv zeta.
  rewrite !totalDamage_level_0.
  intros [H | [_ H]]; [lra |].
  rewrite attenuation_is_sum in H. unfold sumContributions in H.
  cbn in H. lra.
Qed.

End ToggleFacts.

(** ** The state codec *)

Module CodecFacts.
Import Scenario Codec CodecTerms.
Local Open Scope string_scope.

(** *** Numbers and their numerals *)

Lemma to_int_proper (z : Z) :
  Z.to_int z <> Decimal.Pos Decimal.Nil /\ Z.to_int z <> Decimal.Neg Decimal.Nil.
Proof.
  destruct z as [|p|p]; cbn [Z.to_int]; split; try discriminate;
    intros [= H]; now apply (Unsigned.to_uint_nonnil p).
Qed.

Lemma StringOf_nonempty (z : Z) : StringOf z <> "".
Proof.
  unfold StringOf. destruct (Z.to_int z) as [d | d]; cbn; [| discriminate].
  destruct d; discriminate.
Qed.

Lemma NumberOf_StringOf (z : Z) : NumberOf (Some (StringOf z)) = Int z.
Proof.
  pose proof (StringOf_nonempty z) as Hne.
  destruct (to_int_proper z) as [Hp Hn].
  pose proof (NilZero.isi (Z.to_int z) Hp Hn) as Hisi.
  fold (StringOf z) in Hisi. unfold NumberOf.
  destruct (StringOf z) as [|c r]; [congruence |].
  rewrite Hisi. f_equal. apply DecimalZ.of_to.
Qed.

Lemma orElse_nonzero (z d : Z) : z <> 0%Z -> orElse (Int z) d = z.
Proof.
  intros H. cbn. destruct (Z.eqb_spec z 0); congruence.
Qed.

Lemma plain_string_of_uint (d : Decimal.uint) :
  plain (NilEmpty.string_of_uint d) = true.
Proof. induction d; cbn [NilEmpty.string_of_uint plain]; auto. Qed.

Lemma plain_StringOf (z : Z) : plain (StringOf z) = true.
Proof.
  unfold StringOf.
  destruct (Z.to_int z) as [d | d]; cbn [NilZero.string_of_int];
    destruct d; try reflexivity;
    cbn [NilZero.string_of_uint plain];
    try apply (plain_string_of_uint (_ d)); rewrite ?andb_true_l;
    apply (plain_string_of_uint (_ d)).
Qed.

(** *** Serialising and parsing plain strings *)

Lemma unreserved_neq (c sep : ascii) :
  isUnreserved sep = false -> isUnreserved c = true -> Ascii.eqb c sep = false.
Proof.
  intros Hs Hc. destruct (Ascii.eqb_spec c sep); [subst; congruence | reflexivity].
Qed.

Lemma plain_avoids (sep : ascii) (s : string) :
  isUnreserved sep = false -> plain s = true -> avoids sep s = true.
Proof.
  intros Hs. induction s as [|c s IH]; cbn [plain avoids]; [reflexivity |].
  intros H. apply andb_prop in H. destruct H as [Hc Hp].
  now rewrite (unreserved_neq c sep Hs Hc), IH.
Qed.

Lemma avoids_app (sep : ascii) (a b : string) :
  avoids sep (a ++ b) = avoids sep a && avoids sep b.
Proof.
  induction a as [|c a IH]; cbn [append avoids]; [reflexivity |].
  now rewrite IH, andb_assoc.
Qed.

Lemma urlencode_plain (s : string) : plain s = true -> urlencode s = s.
Proof.
  induction s as [|c s IH]; cbn [plain urlencode]; [reflexivity |].
  intros H. apply andb_prop in H. destruct H as [Hc Hp].
  unfold encodeByte. rewrite Hc, (IH Hp). reflexivity.
Qed.

Lemma plusToSpace_plain (s : string) : plain s = true -> plusToSpace s = s.
Proof.
  induction s as [|c s IH]; cbn [plain plusToSpace]; [reflexivity |].
  intros H. apply andb_prop in H. destruct H as [Hc Hp].
  rewrite (unreserved_neq c "+" eq_refl Hc), (IH Hp). reflexivity.
Qed.

Lemma percentDecode_plain (s : string) : plain s = true -> percentDecode s = s.
Proof.
  induction s as [|c s IH]; cbn [plain percentDecode]; [reflexivity |].
  intros H. apply andb_prop in H. destruct H as [Hc Hp].
  rewrite (unreserved_neq c "%" eq_refl Hc), (IH Hp). reflexivity.
Qed.

Lemma split_avoids (sep : ascii) (s : string) :
  avoids sep s = true -> split sep s = [s].
Proof.
  induction s as [|c s IH]; cbn [avoids split]; [reflexivity |].
  intros H. apply andb_prop in H. destruct H as [Hc Hs].
  apply negb_true_iff in Hc. now rewrite Hc, (IH Hs).
Qed.

Lemma split_app (sep : ascii) (x rest : string) :
  avoids sep x = true ->
  split sep (x ++ String sep rest) = x :: split sep rest.
Proof.
  induction x as [|c x IH]; cbn [avoids append split].
  - intros _. now rewrite Ascii.eqb_refl.
  - intros H. apply andb_prop in H. destruct H as [Hc Hx].
    apply negb_true_iff in Hc. now rewrite Hc, (IH Hx).
Qed.

Lemma cut_app (k v : string) :
  avoids "=" k = true -> cut (k ++ String "=" v) = (k, v).
Proof.
  induction k as [|c k IH]; cbn [avoids append cut].
  - reflexivity.
  - intros H. apply andb_prop in H. destruct H as [Hc Hk].
    apply negb_true_iff in Hc. now rewrite Hc, (IH Hk).
Qed.

Lemma pairString_plain (kv : string * string) :
  plainPair kv -> pairString kv = fst kv ++ String "=" (snd kv).
Proof.
  intros [Hk Hv]. unfold pairString.
  now rewrite (urlencode_plain _ Hk), (urlencode_plain _ Hv).
Qed.

Lemma pairString_avoids_amp (kv : string * string) :
  plainPair kv -> avoids "&" (pairString kv) = true.
Proof.
  intros H. rewrite (pairString_plain kv H). destruct H as [Hk Hv].
  rewrite avoids_app. cbn [avoids].
  rewrite (plain_avoids "&" _ eq_refl Hk), (plain_avoids "&" _ eq_refl Hv).
  reflexivity.
Qed.

Lemma pairString_nonempty (kv : string * string) :
  plainPair kv -> String.eqb (pairString kv) "" = false.
Proof.
  intros H. rewrite (pairString_plain kv H). now destruct (fst kv).
Qed.

Lemma parsePair_pairString (kv : string * string) :
  plainPair kv -> parsePair (pairString kv) = kv.
Proof.
  intros H. rewrite (pairString_plain kv H). destruct H as [Hk Hv].
  unfold parsePair. rewrite (cut_app _ _ (plain_avoids "=" _ eq_refl Hk)).
  rewrite !plusToSpace_plain, !percentDecode_plain by assumption.
  now destruct kv.
Qed.

(** Parsing inverts serialising on lists of plain pairs. *)
Lemma parse_toString (p : URLSearchParams) :
  Forall plainPair p -> parse (toString p) = p.
Proof.
  unfold toString. change (fun kv => urlencode (fst kv) ++ "=" ++ urlencode (snd kv))
    with pairString.
  induction 1 as [|kv p Hkv Hp IH]; [reflexivity |].
  destruct p as [|kv' p'].
  - cbn [map concat]. unfold parse.
    rewrite (split_avoids _ _ (pairString_avoids_amp kv Hkv)).
    cbn [filter]. rewrite (pairString_nonempty kv Hkv). cbn [negb map].
    now rewrite parsePair_pairString.
  - change (concat "&" (map pairString (kv :: kv' :: p')))
      with (pairString kv ++ String "&" (concat "&" (map pairString (kv' :: p')))).
    unfold parse in *.
    rewrite (split_app _ _ _ (pairString_avoids_amp kv Hkv)).
    cbn [filter]. rewrite (pairString_nonempty kv Hkv). cbn [negb].
    rewrite map_cons, parsePair_pairString by assumption.
    f_equal. exact IH.
Qed.

Lemma plain_flag (b : bool) : plain (flag b) = true.
Proof. now destruct b. Qed.

(** *** The codec *)

Example encode_sample :
  encode (mkState 180 (mkMitigation true false true) 42)
  = "?level=180&gr=1&pp=0&tb=1&seed=42".
Proof. reflexivity. Qed.

Example decode_sample :
  decode "?level=95&pp=1&tb=yes&seed=-7&apiKey=k"
  = mkState 95 (mkMitigation false true false) (-7).
Proof. reflexivity. Qed.

(** The query string of a state with a non-zero seed lists all five
    parameters. *)
Lemma encode_params (s : State) :
  seed s <> 0%Z ->
  encode s =
    "?" ++ toString
             [ ("level", StringOf (level s));
               ("gr", flag (greenRoofs (mitigation s)));
               ("pp", flag (permeable (mitigation s)));
               ("tb", flag (barriers (mitigation s)));
               ("seed", StringOf (seed s)) ].
Proof.
  intros H. unfold encode, syncURL, truthy.
  destruct (Z.eqb_spec (seed s) 0) as [E | _]; [contradiction |].
  reflexivity.
Qed.

(** For every state whose level and seed are non-zero safe integers,
    decoding the query string that encodes the state gives the state
    back; the state [{level: 180, gr: true, pp: false, tb: true, seed: 42}]
    is one of them. *)
Theorem decode_encode_roundtrip (s : State)
  (Hlevel : isSafeInteger (level s)) (Hseed : isSafeInteger (seed s))
  (Hlevel0 : level s <> 0%Z) (Hseed0 : seed s <> 0%Z) :
  decode (encode s) = s.
Proof.
  rewrite (encode_params s Hseed0).
  unfold decode, readURL, readSeed.
  cbn [append newURLSearchParams].
  rewrite parse_toString.
  - cbn [get String.eqb Ascii.eqb Bool.eqb].
    rewrite !NumberOf_StringOf, !orElse_nonzero by assumption.
    destruct s as [l [g p b] sd]. cbn.
    now destruct g, p, b.
  - repeat constructor; cbn [fst snd];
      auto using plain_StringOf, plain_flag.
Qed.

Lemma decode_encode_roundtrip_witness :
  isSafeInteger 180 /\ isSafeInteger 42 /\ 180%Z <> 0%Z /\ 42%Z <> 0%Z
  /\ decode (encode (mkState 180 (mkMitigation true false true) 42))
     = mkState 180 (mkMitigation true false true) 42.
Proof.
  assert (H180 : isSafeInteger 180) by (unfold isSafeInteger; lia).
  assert (H42 : isSafeInteger 42) by (unfold isSafeInteger; lia).
  assert (N180 : 180%Z <> 0%Z) by lia.
  assert (N42 : 42%Z <> 0%Z) by lia.
  refine (conj H180 (conj H42 (conj N180 (conj N42 _)))).
  exact (decode_encode_roundtrip
           (mkState 180 (mkMitigation true false true) 42) H180 H42 N180 N42).
Defined.

(** C2: at level 0 the round trip fails.  [syncURL] writes [level=0]
    into the query string, the three flags and the seed come back, but
    [Number(p.get('level')) || 120] takes the written 0 for an absent
    level and [readURL] returns 120. *)
Theorem decode_encode_loses_level_zero :
  encode (mkState 0 (mkMitigation true false true) 42)
  = "?level=0&gr=1&pp=0&tb=1&seed=42"
  /\ get (newURLSearchParams (encode (mkState 0 (mkMitigation true false true) 42)))
       "level" = Some "0"
  /\ decode (encode (mkState 0 (mkMitigation true false true) 42))
     = mkState 120 (mkMitigation true false true) 42
  /\ decode (encode (mkState 0 (mkMitigation true false true) 42))
     <> mkState 0 (mkMitigation true false true) 42.
Proof.
  split; [reflexivity | split; [reflexivity | split; [reflexivity |]]].
  intros H. vm_compute in H. discriminate H.
Qed.

(** C9: a parameter that is absent from the query string leaves its
    field at the default: 120 for the level, false for each of the three
    flags, 1337 for the seed. *)
Theorem decode_defaults (k : Param) (search : string)
  (Habsent : absent k search) :
  defaulted k (decode search).
Proof.
  unfold absent in Habsent. unfold defaulted, decode, readURL, readSeed.
  destruct k; cbn [paramName] in Habsent;
    cbn [level mitigation seed greenRoofs permeable barriers];
    rewrite Habsent; reflexivity.
Qed.

Lemma decode_defaults_witness :
  absent PSeed "?level=180&gr=1" /\ defaulted PSeed (decode "?level=180&gr=1").
Proof.
  assert (H : absent PSeed "?level=180&gr=1") by reflexivity.
  split; [exact H | exact (decode_defaults PSeed "?level=180&gr=1" H)].
Defined.

(** With no query string at all every field is at its default. *)
Lemma decode_empty :
  decode "" = mkState 120 (mkMitigation false false false) 1337.
Proof. reflexivity. Qed.

End CodecFacts.

(** ** More on the generator and the dataset *)

Module GeneratorFacts.
Import Mulberry Dataset DatasetTerms.

Lemma ToUint32_period (x k : Z) : ToUint32 (x + k * 2 ^ 32) = ToUint32 x.
Proof. unfold ToUint32. apply Z_mod_plus_full. Qed.

Lemma ToInt32_period (x k : Z) : ToInt32 (x + k * 2 ^ 32) = ToInt32 x.
Proof.
  unfold ToInt32.
  replace (x + k * 2 ^ 32 + 2 ^ 31)%Z with (x + 2 ^ 31 + k * 2 ^ 32)%Z by ring.
  now rewrite Z_mod_plus_full.
Qed.

Lemma output_period (x k : Z) : output (x + k * 2 ^ 32) = output x.
Proof.
  unfold output, bxor, bor, ushr.
  now rewrite !ToInt32_period, !ToUint32_period.
Qed.

(** X1: every value the generator returns lies in [0, 1). *)
Theorem rand_unit_interval (g : Gen) : (0 <= fst (rand g) < 1)%R.
Proof.
  unfold rand. cbn [fst].
  destruct (DatasetFacts.output_range (t g + 0x6D2B79F5)) as [Hlo Hhi].
  apply IZR_le in Hlo. apply IZR_lt in Hhi.
  split.
  - apply Rmult_le_pos; [exact Hlo | lra].
  - apply Rmult_lt_reg_r with 4294967296%R; [lra |].
    unfold Rdiv. rewrite Rmult_assoc, Rinv_l by lra. lra.
Qed.

Lemma rand_congruent (g g' : Gen) (k : Z) :
  t g' = (t g + k * 2 ^ 32)%Z ->
  fst (rand g') = fst (rand g)
  /\ t (snd (rand g')) = (t (snd (rand g)) + k * 2 ^ 32)%Z.
Proof.
  intros H. unfold rand. cbn [fst snd t]. rewrite H. split.
  - do 2 f_equal.
    replace (t g + k * 2 ^ 32 + 0x6D2B79F5)%Z
      with (t g + 0x6D2B79F5 + k * 2 ^ 32)%Z by ring.
    apply output_period.
  - ring.
Qed.

(** X2: as long as the counter [t] stays below [2^53], where the
    untruncated additions of the source are exact, only its residue modulo
    [2^32] matters: two generators whose counters differ by a multiple of
    [2^32] return the same values, call after call. *)
Theorem stream_counter_mod_2_32 (g g' : Gen) (k : Z) (calls : list unit)
  (Hk : t g' = (t g + k * 2 ^ 32)%Z)
  (Hg : (0 <= t g)%Z) (Hg' : (0 <= t g')%Z)
  (Hexact : (t g + Z.of_nat (List.length calls) * 0x6D2B79F5 < 2 ^ 53)%Z)
  (Hexact' : (t g' + Z.of_nat (List.length calls) * 0x6D2B79F5 < 2 ^ 53)%Z) :
  fst (mapRand (fun _ => rand) calls g') = fst (mapRand (fun _ => rand) calls g).
Proof.
  clear Hg Hg' Hexact Hexact'.
  revert g g' Hk. induction calls as [|c calls IH]; intros g g' Hk.
  - reflexivity.
  - cbn [mapRand]. unfold bind at 1 3.
    destruct (rand_congruent g g' k Hk) as [Hv Ht].
    destruct (rand g') as [v' h'] eqn:E'. destruct (rand g) as [v h] eqn:E.
    cbn [fst snd] in Hv, Ht. subst v'.
    unfold bind. specialize (IH h h' Ht).
    destruct (mapRand (fun _ => rand) calls h') as [vs' e'].
    destruct (mapRand (fun _ => rand) calls h) as [vs e].
    cbn [fst] in IH. subst vs'. reflexivity.
Qed.

Lemma stream_counter_mod_2_32_witness :
  t (mkGen (1337 + 2 ^ 32) 0) = (t (mkGen 1337 0) + 1 * 2 ^ 32)%Z
  /\ (0 <= t (mkGen 1337 0))%Z
  /\ (0 <= t (mkGen (1337 + 2 ^ 32) 0))%Z
  /\ (t (mkGen 1337 0)
      + Z.of_nat (List.length [tt; tt; tt]) * 0x6D2B79F5 < 2 ^ 53)%Z
  /\ (t (mkGen (1337 + 2 ^ 32) 0)
      + Z.of_nat (List.length [tt; tt; tt]) * 0x6D2B79F5 < 2 ^ 53)%Z
  /\ fst (mapRand (fun _ => rand) [tt; tt; tt] (mkGen (1337 + 2 ^ 32) 0))
     = fst (mapRand (fun _ => rand) [tt; tt; tt] (mkGen 1337 0)).
Proof.
  assert (H : t (mkGen (1337 + 2 ^ 32) 0) = (t (mkGen 1337 0) + 1 * 2 ^ 32)%Z)
    by reflexivity.
  assert (H0 : (0 <= t (mkGen 1337 0))%Z) by (cbn; lia).
  assert (H0' : (0 <= t (mkGen (1337 + 2 ^ 32) 0))%Z) by (cbn; lia).
  assert (Hb : (t (mkGen 1337 0)
                + Z.of_nat (List.length [tt; tt; tt]) * 0x6D2B79F5 < 2 ^ 53)%Z)
    by (cbn; lia).
  assert (Hb' : (t (mkGen (1337 + 2 ^ 32) 0)
                 + Z.of_nat (List.length [tt; tt; tt]) * 0x6D2B79F5 < 2 ^ 53)%Z)
    by (cbn; lia).
  exact (conj H (conj H0 (conj H0' (conj Hb (conj Hb'
           (stream_counter_mod_2_32 (mkGen 1337 0) (mkGen (1337 + 2 ^ 32) 0)
              1 [tt; tt; tt] H H0 H0' Hb Hb')))))).
Defined.

(** X3: seeds that agree modulo [2^32] (for instance [-5] and
    [4294967291]) give the same generator and the same dataset. *)
Theorem buildings_seed_mod_2_32 (seed k : Z) :
  mulberry32 (seed + k * 2 ^ 32) = mulberry32 seed
  /\ buildings (seed + k * 2 ^ 32) = buildings seed.
Proof.
  assert (H : mulberry32 (seed + k * 2 ^ 32) = mulberry32 seed).
  { unfold mulberry32. now rewrite ToUint32_period. }
  split; [exact H |]. unfold buildings. now rewrite H.
Qed.

(** X4: while the 400 records are built the counter stays below [2^53], so
    the additions [t += 0x6D2B79F5] are exact on doubles; the counter
    ends at the seed's residue plus [1600 * 0x6D2B79F5]. *)
Theorem counter_exact_during_build (seed : Z) (k : Z)
  (Hk : (0 <= k <= 1600)%Z) :
  (0 <= ToUint32 seed + k * 0x6D2B79F5 < 2 ^ 53)%Z
  /\ t (snd (buildingsFrom 400 (mulberry32 seed)))
     = (ToUint32 seed + 1600 * 0x6D2B79F5)%Z.
Proof.
  split.
  - assert (0 <= ToUint32 seed < 2 ^ 32)%Z
      by (unfold ToUint32; apply Z.mod_pos_bound; lia).
    change (2 ^ 32)%Z with 4294967296%Z in *.
    change (2 ^ 53)%Z with 9007199254740992%Z. lia.
  - rewrite DatasetFacts.buildingsFrom_run. reflexivity.
Qed.

Lemma counter_exact_during_build_witness :
  (0 <= 1600 <= 1600)%Z
  /\ (0 <= ToUint32 1337 + 1600 * 0x6D2B79F5 < 2 ^ 53)%Z
  /\ t (snd (buildingsFrom 400 (mulberry32 1337)))
     = (ToUint32 1337 + 1600 * 0x6D2B79F5)%Z.
Proof.
  assert (H : (0 <= 1600 <= 1600)%Z) by lia.
  exact (conj H (counter_exact_during_build 1337 1600 H)).
Defined.

(** X5: every record of every seed lies in the jitter box around the city
    centre and has a cost in [100000, 1000000). *)
Theorem buildings_in_box (seed : Z) :
  Forall (fun b =>
            45.739043 <= lat b < 45.789043
            /\ 4.795659 <= lng b < 4.875659
            /\ 100000 <= replacementCost b < 1000000)%R
    (buildings seed).
Proof.
  rewrite DatasetFacts.buildings_records. apply Forall_map, Forall_forall.
  intros i _. cbn [recordAt lat lng replacementCost lyonCenter fst snd].
  pose proof (DatasetFacts.stream_range seed (4 * i)).
  pose proof (DatasetFacts.stream_range seed (4 * i + 1)).
  pose proof (DatasetFacts.stream_range seed (4 * i + 2)).
  lra.
Qed.

(** X6: the ids are 1, 2, ..., 400 in generation order, hence distinct. *)
Theorem buildings_ids (seed : Z) :
  map id (buildings seed) = map (fun i => Z.of_nat i + 1)%Z (seq 0 400)
  /\ NoDup (map id (buildings seed)).
Proof.
  assert (H : map id (buildings seed)
              = map (fun i => Z.of_nat i + 1)%Z (seq 0 400)).
  { rewrite DatasetFacts.buildings_records, map_map. reflexivity. }
  split; [exact H |]. rewrite H.
  apply Finite.Injective_map_NoDup; [| apply seq_NoDup].
  intros a b E. lia.
Qed.

End GeneratorFacts.

(** ** More on the depth field *)

Module DepthMore.
Import Dataset Scenario ScenarioTerms AttenuationFacts DepthFacts.
Local Open Scope R_scope.

Lemma attenuation_range (m : Mitigation) :
  0 <= computeMitigationAttenuation m <= 0.30.
Proof. rewrite attenuation_is_sum. apply sumContributions_range. Qed.

Lemma depth_level_le (p : R * R) (m : Mitigation) (l1 l2 : R) :
  l1 <= l2 -> depthAtPoint p l1 m <= depthAtPoint p l2 m.
Proof.
  intros Hl. rewrite !depthAtPoint_formula.
  pose proof (attenuation_range m) as Ha.
  apply Rle_max_compat_l. nra.
Qed.

(** X7: raising the water level never lowers the depth at a point. *)
Theorem depth_monotone_in_level (p : R * R) (m : Mitigation) (l1 l2 : R)
  (Hl : l1 <= l2) :
  depthAtPoint p l1 m <= depthAtPoint p l2 m.
Proof.
  rewrite !depthAtPoint_formula.
  pose proof (attenuation_range m) as Ha.
  apply Rle_max_compat_l. nra.
Qed.

Lemma depth_monotone_in_level_witness :
  100 <= 180
  /\ depthAtPoint (45.78, 4.835) 100 (mkMitigation true false false)
     <= depthAtPoint (45.78, 4.835) 180 (mkMitigation true false false).
Proof.
  assert (H : 100 <= 180) by lra.
  exact (conj H (depth_monotone_in_level (45.78, 4.835)
                   (mkMitigation true false false) 100 180 H)).
Defined.

(** A stronger attenuation never raises the depth, at any level. *)
Lemma depth_antitone_in_attenuation (p : R * R) (levelCm : R)
  (m m' : Mitigation) :
  computeMitigationAttenuation m <= computeMitigationAttenuation m' ->
  depthAtPoint p levelCm m' <= depthAtPoint p levelCm m.
Proof.
  intros H. rewrite !depthAtPoint_formula.
  pose proof (attenuation_range m) as Ha.
  pose proof (attenuation_range m') as Ha'.
  pose proof (centerlineDistance_nonneg p) as Hd.
  destruct (Rle_dec 0 levelCm) as [Hl | Hl].
  - apply Rle_max_compat_l. nra.
  - rewrite !Rmax_left by nra. lra.
Qed.

Lemma centerlineDistance_on_entry (c : R * R) :
  In c centerline -> centerlineDistance (vertex c) = 0.
Proof.
  intros HIn. apply Rle_antisym; [| apply centerlineDistance_nonneg].
  pose proof (minVertexDistance_lower (vertex c) (4.835, 45.795)
                [(4.835, 45.780); (4.835, 45.765); (4.835, 45.750)]) as H.
  rewrite Forall_forall in H. specialize (H c HIn).
  unfold centerlineDistance, centerline.
  eapply Rle_trans; [exact H |].
  unfold vertexDistance, vertex. cbn [fst snd].
  replace (snd c - snd c) with 0 by lra.
  replace (fst c - fst c) with 0 by lra.
  rewrite hypot_0_0. lra.
Qed.

(** X8: the depth never exceeds the attenuated level in metres, which never
    exceeds the level in metres; it is 0 for a level of 0 or less; and on
    each of the four centerline entries the bound is reached. *)
Theorem depth_bounds (p : R * R) (levelCm : R) (m : Mitigation) :
  depthAtPoint p levelCm m
  <= Rmax 0 (levelCm * (1 - computeMitigationAttenuation m) / 100)
  /\ Rmax 0 (levelCm * (1 - computeMitigationAttenuation m) / 100)
     <= Rmax 0 (levelCm / 100)
  /\ (levelCm <= 0 -> depthAtPoint p levelCm m = 0)
  /\ Forall (fun c => depthAtPoint (vertex c) levelCm m
                      = Rmax 0 (levelCm * (1 - computeMitigationAttenuation m) / 100))
       centerline.
Proof.
  pose proof (attenuation_range m) as Ha.
  pose proof (centerlineDistance_nonneg p) as Hd.
  split; [| split; [| split]].
  - rewrite depthAtPoint_formula. apply Rle_max_compat_l. lra.
  - unfold Rmax.
    destruct (Rle_dec 0 (levelCm * (1 - computeMitigationAttenuation m) / 100)),
      (Rle_dec 0 (levelCm / 100)); nra.
  - intros Hl. rewrite depthAtPoint_formula. apply Rmax_left. nra.
  - apply Forall_forall. intros c HIn.
    rewrite depthAtPoint_formula, (centerlineDistance_on_entry c HIn).
    f_equal. lra.
Qed.

End DepthMore.

(** ** More on the aggregate pass *)

Module AggregateMore.
Import Dataset Scenario ScenarioTerms.
Import AttenuationFacts DamageFacts DepthFacts AggregateFacts ToggleFacts.
Import DepthMore.
Local Open Scope R_scope.

Lemma count_le_length {A} (f : A -> bool) (l : list A) :
  (count f l <= List.length l)%nat.
Proof.
  unfold count. induction l as [|x l IH]; cbn [filter List.length]; [lia |].
  destruct (f x); cbn [List.length]; lia.
Qed.

Lemma count_and_le {A} (f g : A -> bool) (l : list A) :
  (count (fun x => f x && g x) l <= count f l)%nat.
Proof.
  unfold count. induction l as [|x l IH]; cbn [filter List.length]; [lia |].
  destruct (f x), (g x); cbn [andb List.length]; lia.
Qed.

(** X10: the critical count never exceeds the affected count, which never
    exceeds the number of buildings: 400 for the dataset. *)
Theorem counts_ordered (bs : list Building) (levelCm : R) (m : Mitigation) :
  (criticalCount (renderBuildingsOver bs levelCm m)
   <= affectedCount (renderBuildingsOver bs levelCm m)
   <= List.length bs)%nat
  /\ (forall seed, affectedCount (renderBuildings seed levelCm m) <= 400)%nat.
Proof.
  split.
  - rewrite renderBuildingsOver_spec. cbn [criticalCount affectedCount].
    split; [apply count_and_le | apply count_le_length].
  - intro seed. unfold renderBuildings. rewrite renderBuildingsOver_spec.
    cbn [affectedCount].
    eapply Nat.le_trans; [apply count_le_length |].
    rewrite DatasetFacts.buildings_records, length_map, length_seq. lia.
Qed.

(** The damage of one record: 0 if it is not affected, positive and at
    most 95% of its cost if it is. *)
Lemma damageOf_range (levelCm : R) (m : Mitigation) (b : Building) :
  0 < replacementCost b ->
  (affected levelCm m b = false -> damageOf levelCm m b = 0)
  /\ (affected levelCm m b = true ->
      0 < damageOf levelCm m b <= 0.95 * replacementCost b).
Proof.
  intros Hc. unfold damageOf. split; intros E; rewrite E; [reflexivity |].
  unfold affected in E. apply gtb_true_iff in E.
  pose proof (depthDamageRatio_pos (depthOf levelCm m b)) as Hp.
  pose proof (depthDamageRatio_range (depthOf levelCm m b)) as Hr.
  assert (0 < depthDamageRatio (depthOf levelCm m b)) by (apply Hp; lra).
  split; nra.
Qed.

Lemma total_range (levelCm : R) (m : Mitigation) (bs : list Building) :
  Forall (fun b => 100000 <= replacementCost b < 1000000) bs ->
  0 <= sumR (map (damageOf levelCm m) bs)
       <= 950000 * INR (count (affected levelCm m) bs)
  /\ (count (affected levelCm m) bs = 0%nat ->
      sumR (map (damageOf levelCm m) bs) = 0)
  /\ ((0 < count (affected levelCm m) bs)%nat ->
      0 < sumR (map (damageOf levelCm m) bs)).
Proof.
  induction 1 as [|b bs Hb _ IH].
  - cbn. split; [split; lra | split; [intros _; reflexivity | intros H; lia]].
  - destruct IH as [[IH0 IH1] [IHz IHp]].
    assert (Hc : 0 < replacementCost b) by lra.
    destruct (damageOf_range levelCm m b Hc) as [Hf Ht].
    unfold count in *. cbn [map sumR filter].
    destruct (affected levelCm m b) eqn:E.
    + specialize (Ht eq_refl). cbn [List.length]. rewrite S_INR.
      split; [split; nra | split].
      * intros H; discriminate H.
      * intros _. lra.
    + rewrite (Hf eq_refl).
      split; [split; lra | split].
      * intros H. rewrite (IHz H). lra.
      * intros H. specialize (IHp H). lra.
Qed.

(** X11: for the dataset of any seed the total damage is between 0 and
    950000 per affected building, and it is 0 exactly when no building is
    affected. *)
Theorem totalDamage_bounds (seed : Z) (levelCm : R) (m : Mitigation) :
  0 <= totalDamage (renderBuildings seed levelCm m)
       <= 950000 * INR (affectedCount (renderBuildings seed levelCm m))
  /\ (totalDamage (renderBuildings seed levelCm m) = 0
      <-> affectedCount (renderBuildings seed levelCm m) = 0%nat).
Proof.
  unfold renderBuildings. rewrite renderBuildingsOver_spec.
  cbn [totalDamage affectedCount].
  destruct (total_range levelCm m (buildings seed)
              (DatasetFacts.buildings_cost seed)) as [Hr [Hz Hp]].
  split; [exact Hr | split; [| exact Hz]].
  intros H0.
  destruct (count (affected levelCm m) (buildings seed)) as [|n] eqn:E;
    [reflexivity |].
  assert (0 < S n)%nat as Hpos by lia. specialize (Hp Hpos). lra.
Qed.

(** The damage of a record grows with its depth, between any two
    scenarios. *)
Lemma damage_monotone_in_depth (b : Building) (l1 l2 : R) (m1 m2 : Mitigation) :
  0 <= replacementCost b ->
  depthOf l1 m1 b <= depthOf l2 m2 b ->
  damageOf l1 m1 b <= damageOf l2 m2 b
  /\ (affected l1 m1 b = true -> affected l2 m2 b = true).
Proof.
  intros Hc Hd. unfold damageOf, affected.
  pose proof (depthDamageRatio_monotone _ _ Hd) as Hm.
  pose proof (depthDamageRatio_range (depthOf l1 m1 b)) as Hr1.
  pose proof (depthDamageRatio_range (depthOf l2 m2 b)) as Hr2.
  destruct (gtb (depthOf l1 m1 b) 0.05) eqn:E1,
           (gtb (depthOf l2 m2 b) 0.05) eqn:E2;
    split; try (intros; reflexivity || discriminate); try nra.
  - apply gtb_true_iff in E1. apply gtb_false_iff in E2. lra.
  - apply gtb_true_iff in E1. apply gtb_false_iff in E2. lra.
Qed.

Lemma render_monotone_in_depth (bs : list Building) (l1 l2 : R)
  (m1 m2 : Mitigation) :
  Forall (fun b => 0 < replacementCost b) bs ->
  (forall b, depthOf l1 m1 b <= depthOf l2 m2 b) ->
  sumR (map (damageOf l1 m1) bs) <= sumR (map (damageOf l2 m2) bs)
  /\ (count (affected l1 m1) bs <= count (affected l2 m2) bs)%nat.
Proof.
  intros Hpos Hd. induction Hpos as [|b bs Hb _ IH].
  - cbn. split; [lra | lia].
  - destruct IH as [IHs IHc].
    destruct (damage_monotone_in_depth b l1 l2 m1 m2 (Rlt_le _ _ Hb) (Hd b))
      as [Hdm Haf].
    unfold count in *. cbn [map sumR filter]. split; [lra |].
    destruct (affected l1 m1 b).
    + rewrite (Haf eq_refl). cbn [List.length]. lia.
    + destruct (affected l2 m2 b); cbn [List.length]; lia.
Qed.

(** X12: raising the water level never lowers the total damage or the
    number of affected buildings. *)
Theorem render_monotone_in_level (seed : Z) (m : Mitigation) (l1 l2 : R)
  (Hl : l1 <= l2) :
  totalDamage (renderBuildings seed l1 m) <= totalDamage (renderBuildings seed l2 m)
  /\ (affectedCount (renderBuildings seed l1 m)
      <= affectedCount (renderBuildings seed l2 m))%nat.
Proof.
  unfold renderBuildings. rewrite !renderBuildingsOver_spec.
  cbn [totalDamage affectedCount].
  apply render_monotone_in_depth; [apply buildings_cost_pos |].
  intro b. unfold depthOf. now apply depth_level_le.
Qed.

Lemma render_monotone_in_level_witness :
  100 <= 140
  /\ totalDamage (renderBuildings 1337 100 (mkMitigation false false false))
     <= totalDamage (renderBuildings 1337 140 (mkMitigation false false false))
  /\ (affectedCount (renderBuildings 1337 100 (mkMitigation false false false))
      <= affectedCount (renderBuildings 1337 140 (mkMitigation false false false)))%nat.
Proof.
  assert (H : 100 <= 140) by lra.
  exact (conj H (render_monotone_in_level 1337
                   (mkMitigation false false false) 100 140 H)).
Defined.

Lemma sumContributions_monotone (m m' : Mitigation) :
  Bool.le (greenRoofs m) (greenRoofs m') ->
  Bool.le (permeable m) (permeable m') ->
  Bool.le (barriers m) (barriers m') ->
  sumContributions m <= sumContributions m'.
Proof.
  rewrite !sumContributions_shares. unfold share, contribution.
  destruct (greenRoofs m), (greenRoofs m'), (permeable m), (permeable m'),
    (barriers m), (barriers m'); cbn; intros; try lra; try discriminate.
Qed.

(** X13: any set of additional measures, not only a single one, never raises
    the total damage or the number of affected buildings. *)
Theorem more_measures_never_worse (seed : Z) (levelCm : R) (m m' : Mitigation)
  (Hg : Bool.le (greenRoofs m) (greenRoofs m'))
  (Hp : Bool.le (permeable m) (permeable m'))
  (Hb : Bool.le (barriers m) (barriers m')) :
  totalDamage (renderBuildings seed levelCm m')
  <= totalDamage (renderBuildings seed levelCm m)
  /\ (affectedCount (renderBuildings seed levelCm m')
      <= affectedCount (renderBuildings seed levelCm m))%nat.
Proof.
  unfold renderBuildings. rewrite !renderBuildingsOver_spec.
  cbn [totalDamage affectedCount].
  apply render_monotone_in_depth; [apply buildings_cost_pos |].
  intro b. unfold depthOf. apply depth_antitone_in_attenuation.
  rewrite !attenuation_is_sum. now apply sumContributions_monotone.
Qed.

Lemma more_measures_never_worse_witness :
  Bool.le false true /\ Bool.le false true /\ Bool.le true true
  /\ totalDamage (renderBuildings 1337 120 (mkMitigation true true true))
     <= totalDamage (renderBuildings 1337 120 (mkMitigation false false true))
  /\ (affectedCount (renderBuildings 1337 120 (mkMitigation true true true))
      <= affectedCount (renderBuildings 1337 120 (mkMitigation false false true)))%nat.
Proof.
  assert (H1 : Bool.le false true) by exact I.
  assert (H2 : Bool.le true true) by reflexivity.
  exact (conj H1 (conj H1 (conj H2
           (more_measures_never_worse 1337 120
              (mkMitigation false false true) (mkMitigation true true true)
              H1 H1 H2)))).
Defined.

End AggregateMore.

(** ** Flood polygon and markers *)

Module DisplayFacts.
Import Dataset Scenario ScenarioTerms Display.
Import AttenuationFacts DamageFacts DepthFacts AggregateFacts ToggleFacts.
Local Open Scope R_scope.

(** X14: the polygon has one ring of 16 positions; position [i] is entry [i]
    of [coords] moved by [(-width, +width)] and position [15 - i] is the
    same entry moved by [(+width, -width)].  The ring is not closed:
    unless the width is 0 its last position differs from its first. *)
Theorem flood_polygon_banks (levelCm : R) (m : Mitigation) (i : nat)
  (Hi : (i < 8)%nat) :
  coordinates (generateFloodGeoJSON levelCm m)
  = [leftBank (floodWidth levelCm m) ++ rightBank (floodWidth levelCm m)]
  /\ List.length (leftBank (floodWidth levelCm m)
                  ++ rightBank (floodWidth levelCm m)) = 16%nat
  /\ nth i (leftBank (floodWidth levelCm m) ++ rightBank (floodWidth levelCm m))
       (0, 0)
     = (fst (nth i coords (0, 0)) - floodWidth levelCm m,
        snd (nth i coords (0, 0)) + floodWidth levelCm m)
  /\ nth (15 - i)
       (leftBank (floodWidth levelCm m) ++ rightBank (floodWidth levelCm m))
       (0, 0)
     = (fst (nth i coords (0, 0)) + floodWidth levelCm m,
        snd (nth i coords (0, 0)) - floodWidth levelCm m)
  /\ (floodWidth levelCm m <> 0 ->
      nth 0 (leftBank (floodWidth levelCm m) ++ rightBank (floodWidth levelCm m))
        (0, 0)
      <> nth 15
           (leftBank (floodWidth levelCm m) ++ rightBank (floodWidth levelCm m))
           (0, 0)).
Proof.
  set (w := floodWidth levelCm m).
  split; [reflexivity | split; [reflexivity | split; [| split]]].
  - do 8 (destruct i as [|i]; [reflexivity |]). lia.
  - do 8 (destruct i as [|i]; [reflexivity |]). lia.
  - intros Hw E. cbn in E. injection E as E1 E2. lra.
Qed.

Lemma flood_polygon_banks_witness :
  (3 < 8)%nat
  /\ nth 3 (leftBank (floodWidth 120 (mkMitigation false false false))
            ++ rightBank (floodWidth 120 (mkMitigation false false false)))
       (0, 0)
     = (fst (nth 3 coords (0, 0)) - floodWidth 120 (mkMitigation false false false),
        snd (nth 3 coords (0, 0)) + floodWidth 120 (mkMitigation false false false)).
Proof.
  assert (H : (3 < 8)%nat) by lia.
  split; [exact H |].
  exact (proj1 (proj2 (proj2
           (flood_polygon_banks 120 (mkMitigation false false false) 3 H)))).
Defined.

(** X15: the half-width of the polygon is positive exactly for levels above
    -500 cm, grows with the level, and shrinks (to no less than 70% of the
    unmitigated width) when a measure is switched on. *)
Theorem floodWidth_sign_and_monotone (m : Mitigation) (l1 l2 : R)
  (Hl : l1 <= l2) :
  floodWidth l1 m <= floodWidth l2 m
  /\ (0 < floodWidth l1 m <-> -500 < l1)
  /\ (forall f, 0 <= l1 ->
        0.7 * floodWidth l1 (mkMitigation false false false)
        <= floodWidth l1 (setFlag f true m)
        <= floodWidth l1 (setFlag f false m)).
Proof.
  unfold floodWidth.
  pose proof (sumContributions_range m) as Ha.
  rewrite !attenuation_is_sum.
  split; [nra | split; [split; intros; nra |]].
  intros f H0.
  pose proof (sumContributions_range (setFlag f true m)) as Hon.
  pose proof (sumContributions_setFlag f true m) as Ht.
  pose proof (contribution_pos f) as Hc. cbn [share] in Ht.
  rewrite !attenuation_is_sum.
  replace (sumContributions (mkMitigation false false false)) with 0
    by (unfold sumContributions; cbn; lra).
  split; nra.
Qed.

Lemma floodWidth_sign_and_monotone_witness :
  60 <= 140
  /\ floodWidth 60 (mkMitigation true false true)
     <= floodWidth 140 (mkMitigation true false true).
Proof.
  assert (H : 60 <= 140) by lra.
  exact (conj H (proj1 (floodWidth_sign_and_monotone
                          (mkMitigation true false true) 60 140 H))).
Defined.

Lemma renderMarkers_from (bs : list Building) (levelCm : R) (m : Mitigation)
  (layer : list Marker) :
  fold_left (fun layer b => layer ++ [markerFor levelCm m b]) bs layer
  = layer ++ map (markerFor levelCm m) bs.
Proof.
  revert layer. induction bs as [|b bs IH]; intro layer; cbn [fold_left map].
  - now rewrite app_nil_r.
  - rewrite IH, <- app_assoc. reflexivity.
Qed.

Lemma markerFor_radius (levelCm : R) (m : Mitigation) (b : Building) :
  radius (markerFor levelCm m b)
  = Rmin 10 (depthAtPoint (lat b, lng b) levelCm m * 3 + 3)
  /\ 3 <= radius (markerFor levelCm m b) <= 10.
Proof.
  cbn [markerFor radius].
  pose proof (depthAtPoint_nonneg (lat b, lng b) levelCm m) as Hd.
  set (d := depthAtPoint (lat b, lng b) levelCm m) in *.
  assert (H3 : 3 <= Rmin 10 (d * 3 + 3)) by (apply Rmin_glb; lra).
  rewrite Rmax_right by exact H3.
  split; [reflexivity | split; [exact H3 | apply Rmin_l]].
Qed.

(** X16: [renderBuildings] leaves one marker per building, in order; every
    radius lies in [3, 10], and since depths are never negative the lower
    clamp never applies: the radius is [min(10, 3 * depth + 3)]. *)
Theorem markers_one_per_building (bs : list Building) (levelCm : R)
  (m : Mitigation) :
  renderMarkers bs levelCm m = map (markerFor levelCm m) bs
  /\ List.length (renderMarkers bs levelCm m) = List.length bs
  /\ Forall (fun mk => 3 <= radius mk <= 10) (renderMarkers bs levelCm m)
  /\ (forall b, radius (markerFor levelCm m b)
                = Rmin 10 (depthAtPoint (lat b, lng b) levelCm m * 3 + 3)).
Proof.
  assert (H : renderMarkers bs levelCm m = map (markerFor levelCm m) bs).
  { unfold renderMarkers. now rewrite renderMarkers_from. }
  rewrite H. split; [reflexivity | split; [apply length_map | split]].
  - apply Forall_map, Forall_forall. intros b _. apply markerFor_radius.
  - intro b. apply markerFor_radius.
Qed.

(** X17: the colours agree with the KPI panel: the markers that are not
    green are as many as the affected count, the red ones as many as the
    critical count. *)
Theorem marker_colours_match_counts (bs : list Building) (levelCm : R)
  (m : Mitigation) :
  List.length
    (filter (fun mk => negb (String.eqb (fillColor mk) "#7ee787"))
       (renderMarkers bs levelCm m))
  = affectedCount (renderBuildingsOver bs levelCm m)
  /\ List.length
       (filter (fun mk => String.eqb (fillColor mk) "#ff7b72")
          (renderMarkers bs levelCm m))
     = criticalCount (renderBuildingsOver bs levelCm m).
Proof.
  unfold renderMarkers. rewrite renderMarkers_from, renderBuildingsOver_spec.
  cbn [app affectedCount criticalCount]. unfold count.
  induction bs as [|b bs [IHa IHc]]; [split; reflexivity |].
  cbn [map filter]. cbn [markerFor fillColor].
  unfold affected, depthOf in *.
  destruct (gtb (depthAtPoint (lat b, lng b) levelCm m) 0.05), (isCritical b);
    cbn [negb andb String.eqb Ascii.eqb Bool.eqb List.length];
    rewrite ?IHa, ?IHc; split; reflexivity.
Qed.

End DisplayFacts.

(** ** Animation and modal images *)

Module InteractionFacts.
Import Dataset Scenario ScenarioTerms Display.
Import DepthFacts AggregateFacts.
Local Open Scope R_scope.

Lemma animationStep_range (sliderMin sliderMax t : Z) :
  (sliderMin <= sliderMax)%Z -> (sliderMin <= t <= sliderMax)%Z ->
  (sliderMin <= animationStep sliderMin sliderMax t <= sliderMax)%Z.
Proof.
  intros Hmm Ht. unfold animationStep.
  destruct (Z.gtb_spec (t + 3) sliderMax); lia.
Qed.

(** X19: the animated level never leaves the slider range: each step adds 3,
    and a step that would pass the maximum restarts at the minimum. *)
Theorem animation_stays_in_range (sliderMin sliderMax t : Z) (n : nat)
  (Hmm : (sliderMin <= sliderMax)%Z)
  (Ht : (sliderMin <= t <= sliderMax)%Z) :
  (sliderMin <= Nat.iter n (animationStep sliderMin sliderMax) t <= sliderMax)%Z
  /\ (animationStep sliderMin sliderMax t = (t + 3)%Z
      \/ ((sliderMax < t + 3)%Z
          /\ animationStep sliderMin sliderMax t = sliderMin)).
Proof.
  split.
  - induction n as [|n IH]; [exact Ht |].
    change (Nat.iter (S n) (animationStep sliderMin sliderMax) t)
      with (animationStep sliderMin sliderMax
              (Nat.iter n (animationStep sliderMin sliderMax) t)).
    now apply animationStep_range.
  - unfold animationStep. destruct (Z.gtb_spec (t + 3) sliderMax); auto.
Qed.

Lemma animation_stays_in_range_witness :
  (0 <= 300)%Z /\ (0 <= 299 <= 300)%Z
  /\ (0 <= Nat.iter 5 (animationStep 0 300) 299 <= 300)%Z.
Proof.
  assert (H1 : (0 <= 300)%Z) by lia.
  assert (H2 : (0 <= 299 <= 300)%Z) by lia.
  exact (conj H1 (conj H2
           (proj1 (animation_stays_in_range 0 300 299 5 H1 H2)))).
Defined.

Lemma hypot_self (x y : R) : hypot (x - x) (y - y) = 0.
Proof.
  replace (x - x) with 0 by lra. replace (y - y) with 0 by lra.
  apply hypot_0_0.
Qed.

(** X20: a marker click reports the clicked building's own position, so the
    modal always counts at least one nearby building (the clicked one) and
    never more than there are buildings. *)
Theorem nearby_counts_clicked_building (bs : list Building) :
  Forall (fun b =>
            (1 <= nearbyBuildings bs (lat b) (lng b) <= List.length bs)%nat)
    bs.
Proof.
  apply Forall_forall. intros b HIn. unfold nearbyBuildings. split.
  - assert (Hin : In b (filter
                          (fun b' => ltb (hypot (lat b' - lat b) (lng b' - lng b)) 0.01)
                          bs)).
    { apply filter_In. split; [exact HIn |].
      rewrite hypot_self. unfold ltb. destruct (Rlt_dec 0 0.01); [reflexivity | lra]. }
    destruct (filter _ bs); [contradiction | cbn [List.length]; lia].
  - apply (AggregateMore.count_le_length
             (fun b' => ltb (hypot (lat b' - lat b) (lng b' - lng b)) 0.01) bs).
Qed.

(** X21: for the depth of any point the overlay opacity lies in [0, 0.8] and
    reaches 0.8 exactly from 2 m on, the outer stop is 30% of it, and the
    displayed velocity is not negative. *)
Theorem overlay_opacity_in_range (p : R * R) (levelCm : R) (m : Mitigation) :
  0 <= overlayAlpha (depthAtPoint p levelCm m) <= 0.8
  /\ (overlayAlpha (depthAtPoint p levelCm m) = 0.8
      <-> 2 <= depthAtPoint p levelCm m)
  /\ 0 <= snd (overlayStops (depthAtPoint p levelCm m))
          <= fst (overlayStops (depthAtPoint p levelCm m))
  /\ 0 <= modalVelocity (depthAtPoint p levelCm m).
Proof.
  pose proof (depthAtPoint_nonneg p levelCm m) as Hd.
  set (d := depthAtPoint p levelCm m) in *.
  unfold overlayStops, modalVelocity. cbn [fst snd].
  unfold overlayAlpha, Rmin.
  destruct (Rle_dec 0.8 (d * 0.4)); repeat split; intros; lra.
Qed.

(** The dashed lines are drawn only for depths above 0.5 m: five of
    them, at one to five sixths of the height, hence strictly inside the
    canvas. *)
Theorem overlay_lines_inside (depth height : R) (Hh : 0 < height) :
  (depth <= 0.5 -> overlayLines depth height = [])
  /\ (0.5 < depth ->
      overlayLines depth height
      = [height / 6 * 1; height / 6 * 2; height / 6 * 3;
         height / 6 * 4; height / 6 * 5]
      /\ Forall (fun y => 0 < y < height) (overlayLines depth height)).
Proof.
  unfold overlayLines. split; intros Hd.
  - replace (gtb depth 0.5) with false
      by (symmetry; apply gtb_false_iff; lra).
    reflexivity.
  - replace (gtb depth 0.5) with true
      by (symmetry; apply gtb_true_iff; lra).
    cbn [seq map INR].
    assert (E : [height / 6 * (0 + 1); height / 6 * (1 + 1);
                 height / 6 * (1 + 1 + 1); height / 6 * (1 + 1 + 1 + 1);
                 height / 6 * (1 + 1 + 1 + 1 + 1)]
                = [height / 6 * 1; height / 6 * 2; height / 6 * 3;
                   height / 6 * 4; height / 6 * 5]).
    { repeat (f_equal; try lra). }
    rewrite E. split; [reflexivity |].
    repeat (apply Forall_cons; [lra |]). apply Forall_nil.
Qed.

Lemma overlay_lines_inside_witness :
  0 < 200
  /\ (1 <= 0.5 -> overlayLines 1 200 = [])
  /\ (0.5 < 1 ->
      overlayLines 1 200
      = [200 / 6 * 1; 200 / 6 * 2; 200 / 6 * 3; 200 / 6 * 4; 200 / 6 * 5]
      /\ Forall (fun y => 0 < y < 200) (overlayLines 1 200)).
Proof.
  assert (H : 0 < 200) by lra.
  exact (conj H (overlay_lines_inside 1 200 H)).
Defined.

(** X22: every colour value assigned to a pixel of the synthetic image lies
    between 15 and 180, and the alpha value is 255: nothing is ever
    outside 0..255 for the clamped array to cut off. *)
Theorem satellite_pixel_in_range (x y : nat) :
  match satellitePixel x y with
  | (r, g, b, a) =>
      15 <= r <= 180 /\ 15 <= g <= 180 /\ 15 <= b <= 180 /\ a = 255
  end.
Proof.
  unfold satellitePixel.
  pose proof (SIN_bound (INR x * 0.1)) as Hs.
  pose proof (COS_bound (INR y * 0.1)) as Hc.
  destruct ((x + y) mod 40 <? 20)%nat; repeat split; lra.
Qed.

End InteractionFacts.

(** ** The portfolio page script *)

Module PortfolioFacts.
Import Portfolio.
Local Open Scope R_scope.

Lemma glowStep_offset (mouse glow : R * R) :
  fst mouse - fst (glowStep mouse glow) = 0.94 * (fst mouse - fst glow)
  /\ snd mouse - snd (glowStep mouse glow) = 0.94 * (snd mouse - snd glow).
Proof. unfold glowStep. cbn [fst snd]. split; lra. Qed.

(** X23: with the mouse at rest the glow never passes the mouse and never
    moves away from it: in each coordinate it stays between where it
    started and the mouse, and its distance to the mouse does not grow from
    one frame to the next. *)
Theorem glow_never_moves_away (mouse glow : R * R) (n : nat) :
  Rmin (fst glow) (fst mouse)
  <= fst (Nat.iter n (glowStep mouse) glow)
  <= Rmax (fst glow) (fst mouse)
  /\ Rmin (snd glow) (snd mouse)
     <= snd (Nat.iter n (glowStep mouse) glow)
     <= Rmax (snd glow) (snd mouse)
  /\ Rabs (fst mouse - fst (Nat.iter (S n) (glowStep mouse) glow))
     <= Rabs (fst mouse - fst (Nat.iter n (glowStep mouse) glow))
  /\ Rabs (snd mouse - snd (Nat.iter (S n) (glowStep mouse) glow))
     <= Rabs (snd mouse - snd (Nat.iter n (glowStep mouse) glow)).
Proof.
  assert (Hn : forall k,
             Rmin (fst glow) (fst mouse)
             <= fst (Nat.iter k (glowStep mouse) glow)
             <= Rmax (fst glow) (fst mouse)
             /\ Rmin (snd glow) (snd mouse)
                <= snd (Nat.iter k (glowStep mouse) glow)
                <= Rmax (snd glow) (snd mouse)).
  { induction k as [|k [IHx IHy]].
    - change (Nat.iter 0 (glowStep mouse) glow) with glow.
      pose proof (Rmin_l (fst glow) (fst mouse)).
      pose proof (Rmax_l (fst glow) (fst mouse)).
      pose proof (Rmin_l (snd glow) (snd mouse)).
      pose proof (Rmax_l (snd glow) (snd mouse)).
      split; lra.
    - change (Nat.iter (S k) (glowStep mouse) glow)
        with (glowStep mouse (Nat.iter k (glowStep mouse) glow)).
      destruct (glowStep_offset mouse (Nat.iter k (glowStep mouse) glow))
        as [Hx Hy].
      pose proof (Rmin_r (fst glow) (fst mouse)).
      pose proof (Rmax_r (fst glow) (fst mouse)).
      pose proof (Rmin_r (snd glow) (snd mouse)).
      pose proof (Rmax_r (snd glow) (snd mouse)).
      split; lra. }
  destruct (Hn n) as [Hx Hy].
  split; [exact Hx | split; [exact Hy |]].
  change (Nat.iter (S n) (glowStep mouse) glow)
    with (glowStep mouse (Nat.iter n (glowStep mouse) glow)).
  destruct (glowStep_offset mouse (Nat.iter n (glowStep mouse) glow))
    as [Sx Sy].
  rewrite Sx, Sy, !Rabs_mult, (Rabs_right 0.94) by lra.
  pose proof (Rabs_pos (fst mouse - fst (Nat.iter n (glowStep mouse) glow))).
  pose proof (Rabs_pos (snd mouse - snd (Nat.iter n (glowStep mouse) glow))).
  split; lra.
Qed.

Lemma inView_iff (scrollY : R) (s : SectionBox) :
  inView scrollY s = true
  <-> offsetTop s - 120 <= scrollY < offsetTop s - 120 + offsetHeight s.
Proof.
  unfold inView.
  destruct (Rge_dec scrollY (offsetTop s - 120)),
    (Rlt_dec scrollY (offsetTop s - 120 + offsetHeight s));
    cbn [andb]; split; intros; try discriminate; try reflexivity; lra.
Qed.

Lemma currentSection_from (sections : list SectionBox) (scrollY : R)
  (current : string) :
  fold_left (fun current s => if inView scrollY s then sectionId s else current)
    sections current
  = match find (inView scrollY) (rev sections) with
    | Some s => sectionId s
    | None => current
    end.
Proof.
  induction sections as [|s sections IH] using rev_ind.
  - reflexivity.
  - rewrite fold_left_app, rev_app_distr. cbn [fold_left rev app find].
    destruct (inView scrollY s); [reflexivity | exact IH].
Qed.

(** X24: the highlighted section is the last one, in document order, whose
    band (starting 120 px above its top) contains the scroll position;
    when no section does, [current] stays empty and only a link to ["#"]
    could be highlighted. *)
Theorem active_section_is_last_match (sections : list SectionBox)
  (scrollY : R) :
  currentSection sections scrollY
  = match find (inView scrollY) (rev sections) with
    | Some s => sectionId s
    | None => ""%string
    end
  /\ (forall s, inView scrollY s = true
                <-> offsetTop s - 120 <= scrollY
                    < offsetTop s - 120 + offsetHeight s)
  /\ (forallb (fun s => negb (inView scrollY s)) sections = true ->
      forall href, linkActive sections scrollY href = String.eqb href "#").
Proof.
  split; [apply currentSection_from | split; [apply inView_iff |]].
  intros Hnone href. unfold linkActive, currentSection.
  rewrite currentSection_from.
  destruct (find (inView scrollY) (rev sections)) as [s |] eqn:E;
    [| reflexivity].
  apply find_some in E. destruct E as [HIn Hv].
  apply in_rev in HIn. rewrite forallb_forall in Hnone.
  specialize (Hnone s HIn). rewrite Hv in Hnone. discriminate.
Qed.

End PortfolioFacts.

(** ** More on the state codec *)

Module CodecMore.
Import Scenario Codec CodecTerms CodecFacts.
Local Open Scope string_scope.

Lemma orElse_Int (z d : Z) : orElse (Int z) d = if Z.eqb z 0 then d else z.
Proof. reflexivity. Qed.

Lemma orElse_default_nonzero (x : Num) (d : Z) : d <> 0%Z -> orElse x d <> 0%Z.
Proof.
  intros Hd. destruct x as [|z]; cbn [orElse]; [exact Hd |].
  destruct (Z.eqb_spec z 0); assumption.
Qed.

Lemma encode_written (s : State) : encode s = "?" ++ toString (writtenParams s).
Proof.
  unfold encode, syncURL, truthy, writtenParams.
  destruct (Z.eqb (seed s) 0); reflexivity.
Qed.

Lemma writtenParams_plain (s : State) : Forall plainPair (writtenParams s).
Proof.
  unfold writtenParams.
  destruct (Z.eqb (seed s) 0); repeat constructor; cbn [fst snd];
    auto using plain_StringOf, plain_flag.
Qed.

(** X25: for a level and a seed in the safe-integer range the query
    string is exactly [?level=<level>&gr=<0|1>&pp=<0|1>&tb=<0|1>],
    followed by [&seed=<seed>] unless the seed is 0; nothing in it is
    percent-escaped. *)
Theorem query_string_shape (s : State)
  (Hlevel : isSafeInteger (level s)) (Hseed : isSafeInteger (seed s)) :
  encode s
  = "?level=" ++ StringOf (level s)
    ++ "&gr=" ++ flag (greenRoofs (mitigation s))
    ++ "&pp=" ++ flag (permeable (mitigation s))
    ++ "&tb=" ++ flag (barriers (mitigation s))
    ++ (if Z.eqb (seed s) 0 then "" else "&seed=" ++ StringOf (seed s)).
Proof.
  clear Hlevel Hseed.
  rewrite encode_written. unfold writtenParams, toString.
  destruct s as [l [g p b] sd]. cbn [level mitigation seed greenRoofs permeable barriers].
  pose proof (urlencode_plain _ (plain_StringOf l)) as El.
  pose proof (urlencode_plain _ (plain_StringOf sd)) as Es.
  set (vl := StringOf l) in *. set (vs := StringOf sd) in *.
  destruct (Z.eqb sd 0), g, p, b;
    cbn [app map concat fst snd flag urlencode encodeByte];
    rewrite ?El, ?Es; cbn; reflexivity.
Qed.

Lemma query_string_shape_witness :
  isSafeInteger (level (mkState 95 (mkMitigation false true false) 1337))
  /\ isSafeInteger (seed (mkState 95 (mkMitigation false true false) 1337))
  /\ encode (mkState 95 (mkMitigation false true false) 1337)
     = "?level=" ++ StringOf 95 ++ "&gr=" ++ flag false ++ "&pp=" ++ flag true
       ++ "&tb=" ++ flag false ++ "&seed=" ++ StringOf 1337.
Proof.
  assert (H1 : isSafeInteger (level (mkState 95 (mkMitigation false true false) 1337)))
    by (unfold isSafeInteger; cbn; lia).
  assert (H2 : isSafeInteger (seed (mkState 95 (mkMitigation false true false) 1337)))
    by (unfold isSafeInteger; cbn; lia).
  exact (conj H1 (conj H2
           (query_string_shape (mkState 95 (mkMitigation false true false) 1337)
              H1 H2))).
Defined.

Lemma decode_written (s : State) :
  decode ("?" ++ toString (writtenParams s))
  = {| level := if Z.eqb (level s) 0 then 120%Z else level s;
       mitigation := mitigation s;
       seed := if Z.eqb (seed s) 0 then 1337%Z else seed s |}.
Proof.
  unfold decode, readURL, readSeed.
  cbn [append newURLSearchParams].
  rewrite (parse_toString _ (writtenParams_plain s)).
  unfold writtenParams.
  destruct s as [l [g p b] sd].
  cbn [level mitigation seed greenRoofs permeable barriers].
  destruct (Z.eqb sd 0) eqn:E;
    cbn [app get String.eqb Ascii.eqb Bool.eqb];
    rewrite ?NumberOf_StringOf;
    change (NumberOf None) with (Int 0);
    rewrite ?orElse_Int, ?E;
    destruct g, p, b; reflexivity.
Qed.

(** X26: decoding what was encoded gives the state back with a level of 0
    replaced by 120 and a seed of 0 replaced by 1337; the three flags
    always come back unchanged. *)
Theorem decode_encode_normalises (s : State) :
  decode (encode s)
  = {| level := if Z.eqb (level s) 0 then 120%Z else level s;
       mitigation := mitigation s;
       seed := if Z.eqb (seed s) 0 then 1337%Z else seed s |}
  /\ mitigation (decode (encode s)) = mitigation s.
Proof.
  rewrite encode_written, decode_written. split; reflexivity.
Qed.

(** X27: whatever the query string, the decoded level and seed are never 0:
    a link cannot select level 0 or seed 0. *)
Theorem decode_never_zero (search : string) :
  level (decode search) <> 0%Z /\ seed (decode search) <> 0%Z.
Proof.
  unfold decode, readURL, readSeed. cbn [level seed].
  split; apply orElse_default_nonzero; lia.
Qed.

(** X28: a state read from a link survives being written back and read
    again. *)
Theorem decoded_state_is_stable (search : string)
  (Hlevel : isSafeInteger (level (decode search)))
  (Hseed : isSafeInteger (seed (decode search))) :
  decode (encode (decode search)) = decode search.
Proof.
  rewrite encode_written, decode_written.
  assert (Hl : level (decode search) <> 0%Z).
  { unfold decode, readURL. cbn [level]. apply orElse_default_nonzero. lia. }
  assert (Hs : seed (decode search) <> 0%Z).
  { unfold decode, readURL, readSeed. cbn [seed].
    apply orElse_default_nonzero. lia. }
  destruct (Z.eqb_spec (level (decode search)) 0); [contradiction |].
  destruct (Z.eqb_spec (seed (decode search)) 0); [contradiction |].
  now destruct (decode search).
Qed.

Lemma decoded_state_is_stable_witness :
  isSafeInteger (level (decode "?level=0&gr=1&tb=true&seed=abc"))
  /\ isSafeInteger (seed (decode "?level=0&gr=1&tb=true&seed=abc"))
  /\ decode (encode (decode "?level=0&gr=1&tb=true&seed=abc"))
     = decode "?level=0&gr=1&tb=true&seed=abc".
Proof.
  assert (H1 : isSafeInteger (level (decode "?level=0&gr=1&tb=true&seed=abc")))
    by (vm_compute; split; discriminate).
  assert (H2 : isSafeInteger (seed (decode "?level=0&gr=1&tb=true&seed=abc")))
    by (vm_compute; split; discriminate).
  exact (conj H1 (conj H2
           (decoded_state_is_stable "?level=0&gr=1&tb=true&seed=abc" H1 H2))).
Defined.

End CodecMore.
